(** * RobotSpareBin order robot: a shallow embedding of [tasks.py]

    The task downloads a CSV file of robot orders, fills and submits the
    order form of the web shop once per row, stores every receipt as a PDF
    with a screenshot of the robot laid over it, and zips the receipts.

    The script is straight-line glue around library calls.  Every library
    call is an [Action]; the outcome of an action (does it raise, what does
    it return) is decided by an environment [Env] that sees the whole
    history.  A run threads a [World] (the history of calls and the store
    of [Config] objects) through an exception monad.

    Conventions.  [browser.page()] is part of the call made on the page.
    The constructions [PDF()], [HTTP()], [Tables()] and [Archive()] make no
    call of their own.  Integers are [Z], strings are [string], an
    f-string is a concatenation with [str_int] for an integer.  Every
    exception is an [Exception], so [except Exception] catches all of
    them.  The loop of [submit_order] is a [while] with a budget of loop
    tests; that a budget of four is always enough is a theorem. *)

From Stdlib Require Import ZArith Lia Ascii.
From stdpp Require Import base strings list gmap pretty.

Local Open Scope Z_scope.

(** ** Paths ([pathlib.Path]) *)

(** A path is the list of its parts; the root of an absolute path is the
    part ["/"], as in [PurePosixPath.parts]. *)
Abbreviation Path := (list string).

Definition is_absolute (p : Path) : bool :=
  match p with
  | root :: _ => String.eqb root "/"
  | [] => false
  end.

(** [p.absolute()] in the working directory [cwd]. *)
Definition absolute_from (cwd : Path) (p : Path) : Path :=
  if is_absolute p then p else cwd ++ p.

Fixpoint split_slash (s : string) : list string :=
  match s with
  | EmptyString => [EmptyString]
  | String c s' =>
      if Ascii.eqb c "/"%char then EmptyString :: split_slash s'
      else match split_slash s' with
           | part :: parts => String c part :: parts
           | [] => [String c EmptyString]
           end
  end.

Definition starts_with_slash (s : string) : bool :=
  match s with
  | String c _ => Ascii.eqb c "/"%char
  | EmptyString => false
  end.

(** [Path(s)]: split at the slashes, drop empty parts and ["."]. *)
Definition Path_of (s : string) : Path :=
  let parts := filter (fun part => part <> "" /\ part <> ".") (split_slash s) in
  if starts_with_slash s then "/" :: parts else parts.

(** [p.joinpath(name)]: a relative [name] is appended, an absolute one
    replaces [p]. *)
Definition joinpath (p : Path) (name : string) : Path :=
  let q := Path_of name in
  if is_absolute q then q else p ++ q.

(** ** Exceptions *)

Inductive Exn : Type :=
| LibraryError (msg : string)   (* raised inside a browser, HTTP, table, PDF or archive call *)
| KeyError (key : string)       (* [row[key]] on a row without that column *)
| Exception (msg : string).     (* [raise Exception(msg)] of the script itself *)

(** [str(e)] *)
Definition str_exn (e : Exn) : string :=
  match e with
  | LibraryError msg => msg
  | KeyError key => "'" +:+ key +:+ "'"
  | Exception msg => msg
  end.

(** ** Data model *)

Record Order : Type := mkOrder {
  order_number : Z;
  head : string;
  body : string;
  legs : string;
  address : string
}.

Record Config : Type := mkConfig {
  robot_order_website_url : string;
  orders_file_url : string;
  orders_file_name : string;
  output_dir : Path
}.

(** The field defaults of the dataclass: the value of [Config()]. *)
Definition Config_defaults : Config :=
  {| robot_order_website_url := "https://robotsparebinindustries.com/#robot-order";
     orders_file_url := "https://robotsparebinindustries.com/orders.csv";
     orders_file_name := "orders.csv";
     output_dir := Path_of "output" |}.

(** A row of the table read from the CSV file: a dictionary from column
    names to cells.  The columns are typed as the fields of [Order] they
    fill: integer cells and text cells. *)
Record Row : Type := mkRow {
  int_cells : gmap string Z;
  str_cells : gmap string string
}.

(** ** Library calls *)

Inductive Action : Type :=
| Download (url : string) (target_file : string) (overwrite : bool)
| ReadTableFromCsv (file : string)
| Goto (url : string)
| Click (selector : string) (timeout : option Z)
| SelectOption (selector : string) (value : string)
| Fill (selector : string) (value : string)
| WaitForSelector (selector : string) (state : string) (timeout : Z)
| InnerHtml (selector : string)
| Screenshot (path : Path)
| HtmlToPdf (html : string) (output_path : Path)
| AddWatermarkImageToPdf (image_path source_path output_path : Path)
| ArchiveFolderWithZip (folder : Path) (archive_name : Path).

Record Event : Type := mkEvent {
  action : Action;
  raised : option Exn      (* [None]: the call returned *)
}.

(** The outside world: the web shop, the network, the file system.  It
    decides, from everything that happened so far, whether a call raises,
    and what the two calls with a result return. *)
Record Env : Type := mkEnv {
  fails : list Event -> Action -> option Exn;
  page_html : list Event -> string -> string;
  csv_rows : list Event -> string -> list Row;
  cwd : Path
}.

(** ** Worlds and the monad of the script *)

(** A reference to a [Config] object in the store. *)
Abbreviation ref := nat.

Record World : Type := mkWorld {
  trace : list Event;      (* library calls so far, oldest first *)
  heap : list Config       (* the [Config] objects allocated so far *)
}.

Inductive Result (A : Type) : Type :=
| Ok (a : A)
| Raised (e : Exn)
| OutOfFuel        (* the loop budget of the model ran out *)
| BadRef.          (* a reference to no object; the script never builds one *)
Arguments Ok {A} a.
Arguments Raised {A} e.
Arguments OutOfFuel {A}.
Arguments BadRef {A}.

Definition M (A : Type) : Type := Env -> World -> Result A * World.

Definition ret {A} (a : A) : M A := fun _ w => (Ok a, w).

Definition bind {A B} (m : M A) (k : A -> M B) : M B :=
  fun env w =>
    match m env w with
    | (Ok a, w') => k a env w'
    | (Raised e, w') => (Raised e, w')
    | (OutOfFuel, w') => (OutOfFuel, w')
    | (BadRef, w') => (BadRef, w')
    end.

Definition raise {A} (e : Exn) : M A := fun _ w => (Raised e, w).

(** [try: m  except Exception as e: handler e] *)
Definition try_except {A} (m : M A) (handler : Exn -> M A) : M A :=
  fun env w =>
    match m env w with
    | (Raised e, w') => handler e env w'
    | other => other
    end.

Declare Scope py_scope.
Delimit Scope py_scope with py.
Notation "x <- m ;; k" := (bind m (fun x => k))
  (at level 100, m at next level, right associativity) : py_scope.
Notation "m ;; k" := (bind m (fun _ => k))
  (at level 100, right associativity) : py_scope.
Local Open Scope py_scope.

Definition record (a : Action) (r : option Exn) (w : World) : World :=
  {| trace := trace w ++ [mkEvent a r]; heap := heap w |}.

(** A library call without a result. *)
Definition call (a : Action) : M unit :=
  fun env w =>
    match fails env (trace w) a with
    | Some e => (Raised e, record a (Some e) w)
    | None => (Ok tt, record a None w)
    end.

(** [browser.page().locator(selector).inner_html()] *)
Definition inner_html (selector : string) : M string :=
  fun env w =>
    match fails env (trace w) (InnerHtml selector) with
    | Some e => (Raised e, record (InnerHtml selector) (Some e) w)
    | None => (Ok (page_html env (trace w) selector), record (InnerHtml selector) None w)
    end.

(** [Tables().read_table_from_csv(file)] *)
Definition read_table_from_csv (file : string) : M (list Row) :=
  fun env w =>
    match fails env (trace w) (ReadTableFromCsv file) with
    | Some e => (Raised e, record (ReadTableFromCsv file) (Some e) w)
    | None => (Ok (csv_rows env (trace w) file), record (ReadTableFromCsv file) None w)
    end.

(** [p.absolute()] *)
Definition absolute (p : Path) : M Path :=
  fun env w => (Ok (absolute_from (cwd env) p), w).

(** [Config()]: a new object in the store, holding the defaults. *)
Definition Config_new : M ref :=
  fun _ w => (Ok (length (heap w)),
              {| trace := trace w; heap := heap w ++ [Config_defaults] |}).

(** [config.field] *)
Definition getattr {A} (config : ref) (field : Config -> A) : M A :=
  fun _ w =>
    match heap w !! config with
    | Some c => (Ok (field c), w)
    | None => (BadRef, w)
    end.

(** [for x in xs: body x] *)
Fixpoint for_each {A} (xs : list A) (body : A -> M unit) : M unit :=
  match xs with
  | [] => ret tt
  | x :: rest => body x ;; for_each rest body
  end.

(** [while cond(s): s = body(s)], with a budget of loop tests. *)
Fixpoint while {St} (fuel : nat) (cond : St -> bool) (body : St -> M St) (s : St) : M St :=
  match fuel with
  | O => fun _ w => (OutOfFuel, w)
  | S fuel' =>
      if cond s then s' <- body s ;; while fuel' cond body s' else ret s
  end.

(** [str(n)] for a Python [int], as it appears in an f-string. *)
Definition str_int (n : Z) : string := pretty n.

(** The truth value of a string in [if s:]. *)
Definition truthy (s : string) : bool :=
  match s with
  | EmptyString => false
  | String _ _ => true
  end.

(** ** The script *)

(** [download_file] *)
Definition download_file (url : string) (file_name : string) : M unit :=
  call (Download url file_name true).

(** [row[key]] *)
Definition getitem {A} (cells : gmap string A) (key : string) : M A :=
  match cells !! key with
  | Some v => ret v
  | None => raise (KeyError key)
  end.

(** The body of the comprehension in [get_orders]. *)
Definition Order_of_row (row : Row) : M Order :=
  order_number <- getitem (int_cells row) "Order number" ;;
  head <- getitem (str_cells row) "Head" ;;
  body <- getitem (str_cells row) "Body" ;;
  legs <- getitem (str_cells row) "Legs" ;;
  address <- getitem (str_cells row) "Address" ;;
  ret (mkOrder order_number head body legs address).

(** [[f(x) for x in xs]] *)
Fixpoint comprehension {A B} (f : A -> M B) (xs : list A) : M (list B) :=
  match xs with
  | [] => ret []
  | x :: rest =>
      y <- f x ;;
      ys <- comprehension f rest ;;
      ret (y :: ys)
  end.

(** [get_orders] *)
Definition get_orders (config : ref) : M (list Order) :=
  file <- getattr config orders_file_name ;;
  table <- read_table_from_csv file ;;
  comprehension Order_of_row table.

(** [open_robot_order_website] *)
Definition open_robot_order_website (config : ref) : M unit :=
  url <- getattr config robot_order_website_url ;;
  call (Goto url).

(** [close_annoying_modal] *)
Definition close_annoying_modal : M unit :=
  call (Click "button:text('OK')" None).

(** [go_back_to_order_form] *)
Definition go_back_to_order_form : M unit :=
  call (Click "button:text('Order another robot')" (Some 1000)).

(** [fill_order_form] *)
Definition fill_order_form (order : Order) : M unit :=
  call (SelectOption "#head" (head order)) ;;
  call (Click ("#id-body-" +:+ body order) None) ;;
  call (Fill "input.form-control[type='number']" (legs order)) ;;
  call (Fill "#address" (address order)).

(** The two lambdas of [submit_order]. *)
Definition click_order : M unit :=
  call (Click "button:text('Order')" (Some 1000)).

Definition wait_for_receipt : M unit :=
  call (WaitForSelector "#receipt" "visible" 1000).

(** The local variables of [submit_order] that its loop updates. *)
Record SubmitState : Type := mkSubmitState {
  success : bool;
  retry_count : Z
}.

Definition max_retries : Z := 3.

(** The message of the exception [submit_order] raises. *)
Definition exhausted_message (e : Exn) : string :=
  "Failed to return to order form after " +:+ str_int max_retries
    +:+ " attempts: " +:+ str_exn e.

(** One pass through the body of [while not success:]. *)
Definition retry_body (e : Exn) (s : SubmitState) : M SubmitState :=
  let retry_count := retry_count s + 1 in
  if retry_count <=? max_retries then
    try_except
      (click_order ;;
       wait_for_receipt ;;
       ret (mkSubmitState true retry_count))
      (fun _ => ret (mkSubmitState (success s) retry_count))
  else
    raise (Exception (exhausted_message e)).

(** [submit_order]; [fuel] bounds the number of tests of the loop condition. *)
Definition submit_order (fuel : nat) : M unit :=
  try_except
    (click_order ;; wait_for_receipt)
    (fun e =>
       while fuel (fun s => negb (success s)) (retry_body e) (mkSubmitState false 0) ;;
       ret tt).

(** [await_robot_preview] *)
Definition await_robot_preview (head body legs : string) (timeout : Z) : M unit :=
  call (WaitForSelector "#robot-preview-image" "visible" timeout) ;;
  (if truthy head then
     call (WaitForSelector ("#robot-preview-image img[src='/heads/" +:+ head +:+ ".png']")
             "visible" timeout)
   else ret tt) ;;
  (if truthy body then
     call (WaitForSelector ("#robot-preview-image img[src='/bodies/" +:+ body +:+ ".png']")
             "visible" timeout)
   else ret tt) ;;
  (if truthy legs then
     call (WaitForSelector ("#robot-preview-image img[src='/legs/" +:+ legs +:+ ".png']")
             "visible" timeout)
   else ret tt).

(** The default of the [timeout] parameter of [await_robot_preview]. *)
Definition default_timeout : Z := 5000.

(** [screenshot_robot] *)
Definition screenshot_robot (order : Order) (config : ref) : M Path :=
  let file_name := "robot-" +:+ str_int (order_number order) +:+ ".png" in
  dir <- getattr config output_dir ;;
  full_path <- absolute (joinpath (joinpath dir "screenshots") file_name) ;;
  await_robot_preview (head order) (body order) (legs order) default_timeout ;;
  call (Screenshot full_path) ;;
  ret full_path.

(** [embed_screenshot_to_receipt] *)
Definition embed_screenshot_to_receipt (screenshot_file pdf_file : Path) : M unit :=
  call (AddWatermarkImageToPdf screenshot_file pdf_file pdf_file).

(** [store_receipt_as_pdf] *)
Definition store_receipt_as_pdf (order : Order) (config : ref) : M unit :=
  screenshot_file <- screenshot_robot order config ;;
  receipt_html <- inner_html "#receipt" ;;
  dir <- getattr config output_dir ;;
  receipt_file <-
    absolute (joinpath (joinpath dir "receipts")
                ("receipt-" +:+ str_int (order_number order) +:+ ".pdf")) ;;
  call (HtmlToPdf receipt_html receipt_file) ;;
  embed_screenshot_to_receipt screenshot_file receipt_file.

(** The body of the loop of [fill_and_submit_sales_form]. *)
Definition process_order (fuel : nat) (config : ref) (order : Order) : M unit :=
  fill_order_form order ;;
  submit_order fuel ;;
  store_receipt_as_pdf order config ;;
  go_back_to_order_form ;;
  close_annoying_modal.

(** [fill_and_submit_sales_form] *)
Definition fill_and_submit_sales_form (fuel : nat) (orders : list Order) (config : ref) : M unit :=
  for_each orders (process_order fuel config).

(** [archive_receipts] *)
Definition archive_receipts (config : ref) : M unit :=
  dir <- getattr config output_dir ;;
  folder <- absolute (joinpath dir "receipts") ;;
  dir' <- getattr config output_dir ;;
  archive_name <- absolute (joinpath dir' "receipts.zip") ;;
  call (ArchiveFolderWithZip folder archive_name).

(** [order_robots_from_RobotSpareBin], the task. *)
Definition order_robots_from_RobotSpareBin (fuel : nat) : M unit :=
  config <- Config_new ;;
  url <- getattr config orders_file_url ;;
  file_name <- getattr config orders_file_name ;;
  download_file url file_name ;;
  orders <- get_orders config ;;
  open_robot_order_website config ;;
  close_annoying_modal ;;
  fill_and_submit_sales_form fuel orders config ;;
  archive_receipts config.

(** ** Observations on a run *)

(** The action of one submit attempt. *)
Definition order_click : Action := Click "button:text('Order')" (Some 1000).
Definition receipt_wait : Action := WaitForSelector "#receipt" "visible" 1000.

Definition Action_eqb_order_click (a : Action) : bool :=
  match a with
  | Click selector (Some 1000) => String.eqb selector "button:text('Order')"
  | _ => false
  end.

Definition Action_eqb_receipt_wait (a : Action) : bool :=
  match a with
  | WaitForSelector selector state 1000 =>
      String.eqb selector "#receipt" && String.eqb state "visible"
  | _ => false
  end.

(** The calls [submit_order] makes. *)
Definition is_submit_action (a : Action) : bool :=
  Action_eqb_order_click a || Action_eqb_receipt_wait a.

(** Number of clicks on the Order button among some events. *)
Definition order_clicks (d : list Event) : nat :=
  length (List.filter (fun ev => Action_eqb_order_click (action ev)) d).

(** One submit attempt, as [submit_order] makes it first and in each retry. *)
Definition attempt : M unit := click_order ;; wait_for_receipt.

(** ** Notions used to state the properties *)

(** The world after some more library calls. *)
Definition extend (w : World) (d : list Event) : World :=
  {| trace := trace w ++ d; heap := heap w |}.

(** The shape of the events of one attempt: one click and, when the click
    returned, one wait. *)
Inductive attempt_shape : Result unit -> list Event -> Prop :=
| attempt_click_raised e :
    attempt_shape (Raised e) [mkEvent order_click (Some e)]
| attempt_wait_raised e :
    attempt_shape (Raised e) [mkEvent order_click None; mkEvent receipt_wait (Some e)]
| attempt_returned :
    attempt_shape (Ok tt) [mkEvent order_click None; mkEvent receipt_wait None].

(** The retry policy in the words of the design notes: a bounded retry of
    one click-and-wait unit, [n] more attempts allowed, [e] the failure of
    the first attempt. *)
Fixpoint retry (n : nat) (e : Exn) : M unit :=
  match n with
  | O => raise (Exception (exhausted_message e))
  | S n' => try_except attempt (fun _ => retry n' e)
  end.

Definition submit_with_retries : M unit :=
  try_except attempt (fun e => retry 3 e).

(** Events made of submit calls only. *)
Definition submit_events (d : list Event) : Prop :=
  Forall (fun ev => is_submit_action (action ev) = true) d.


Fixpoint has_slash (s : string) : bool :=
  match s with
  | EmptyString => false
  | String c s' => Ascii.eqb c "/"%char || has_slash s'
  end.

(** The files of an order, below the output directory of the
    configuration. *)
Definition receipt_file (cwd : Path) (cfg : Config) (order : Order) : Path :=
  absolute_from cwd (output_dir cfg)
    ++ ["receipts"; "receipt-" +:+ str_int (order_number order) +:+ ".pdf"].

Definition screenshot_file (cwd : Path) (cfg : Config) (order : Order) : Path :=
  absolute_from cwd (output_dir cfg)
    ++ ["screenshots"; "robot-" +:+ str_int (order_number order) +:+ ".png"].

(** A plan of library calls carried out in order, from world [w], up to
    the first call that raises: the result and the events of the run. *)
Inductive calls_run (env : Env) : World -> list Action -> Result unit -> list Event -> Prop :=
| calls_done w :
    calls_run env w [] (Ok tt) []
| calls_raise w a rest e :
    fails env (trace w) a = Some e ->
    calls_run env w (a :: rest) (Raised e) [mkEvent a (Some e)]
| calls_step w a rest r d :
    fails env (trace w) a = None ->
    calls_run env (extend w [mkEvent a None]) rest r d ->
    calls_run env w (a :: rest) r (mkEvent a None :: d).

(** The calls of [fill_order_form]. *)
Definition fill_plan (order : Order) : list Action :=
  [SelectOption "#head" (head order);
   Click ("#id-body-" +:+ body order) None;
   Fill "input.form-control[type='number']" (legs order);
   Fill "#address" (address order)].

(** The waits of the preview. *)
Definition preview_container_wait (timeout : Z) : Action :=
  WaitForSelector "#robot-preview-image" "visible" timeout.

Definition head_wait (head : string) (timeout : Z) : Action :=
  WaitForSelector ("#robot-preview-image img[src='/heads/" +:+ head +:+ ".png']")
    "visible" timeout.

Definition body_wait (body : string) (timeout : Z) : Action :=
  WaitForSelector ("#robot-preview-image img[src='/bodies/" +:+ body +:+ ".png']")
    "visible" timeout.

Definition legs_wait (legs : string) (timeout : Z) : Action :=
  WaitForSelector ("#robot-preview-image img[src='/legs/" +:+ legs +:+ ".png']")
    "visible" timeout.

(** The wait for one part: none when its identifier is the empty string. *)
Definition part_wait (wait : string -> Z -> Action) (part : string) (timeout : Z)
  : list Action :=
  if String.eqb part "" then [] else [wait part timeout].

(** The preview wait: the container, then the parts that are given. *)
Definition preview_waits (head body legs : string) (timeout : Z) : list Action :=
  preview_container_wait timeout
  :: part_wait head_wait head timeout
  ++ part_wait body_wait body timeout
  ++ part_wait legs_wait legs timeout.

(** The capture step as the script carries it out. *)
Definition capture_plan (cwd : Path) (cfg : Config) (order : Order) (html : string)
  : list Action :=
  preview_waits (head order) (body order) (legs order) default_timeout
  ++ [Screenshot (screenshot_file cwd cfg order);
      InnerHtml "#receipt";
      HtmlToPdf html (receipt_file cwd cfg order);
      AddWatermarkImageToPdf (screenshot_file cwd cfg order)
        (receipt_file cwd cfg order) (receipt_file cwd cfg order)].

(** The two clicks that lead back to an empty form. *)
Definition return_plan : list Action :=
  [Click "button:text('Order another robot')" (Some 1000);
   Click "button:text('OK')" None].

(** The order of the capture step as the specification words it: receipt
    HTML, PDF, preview waits, screenshot, overlay. *)
Definition claimed_capture_order (acts : list Action) : Prop :=
  exists html pdf waits shot,
    acts = [InnerHtml "#receipt"; HtmlToPdf html pdf] ++ waits
           ++ [Screenshot shot; AddWatermarkImageToPdf shot pdf pdf].

(** ** Sample inputs *)

(** The row [(1, "1", "2", "3", "Main St 1")]. *)
Definition sample_row : Row :=
  mkRow {[ "Order number" := 1 ]}
        {[ "Head" := "1"; "Body" := "2"; "Legs" := "3"; "Address" := "Main St 1" ]}.

Definition sample_order : Order := mkOrder 1 "1" "2" "3" "Main St 1".

(** An order without a head. *)
Definition headless_order : Order := mkOrder 7 "" "2" "3" "Main St 7".

(** A web shop where every call returns. *)
Definition calm_env : Env :=
  mkEnv (fun _ _ => None) (fun _ _ => "<div>receipt</div>")
        (fun _ _ => [sample_row]) ["/"; "home"; "robot"].

Definition timeout_error : Exn := LibraryError "Timeout 5000ms exceeded.".

(** A web shop that never shows an image for the head identifier [""]. *)
Definition no_head_image_env : Env :=
  mkEnv (fun _ a =>
           match a with
           | WaitForSelector selector _ _ =>
               if String.eqb selector "#robot-preview-image img[src='/heads/.png']"
               then Some timeout_error else None
           | _ => None
           end)
        (fun _ _ => "<div>receipt</div>") (fun _ _ => [sample_row]) ["/"; "home"; "robot"].

(** A web shop that never shows an image for the head identifier ["3"]. *)
Definition no_head_3_env : Env :=
  mkEnv (fun _ a =>
           match a with
           | WaitForSelector selector _ _ =>
               if String.eqb selector "#robot-preview-image img[src='/heads/3.png']"
               then Some timeout_error else None
           | _ => None
           end)
        (fun _ _ => "<div>receipt</div>") (fun _ _ => [sample_row]) ["/"; "home"; "robot"].

Definition head_3_order : Order := mkOrder 2 "3" "2" "3" "Main St 2".

(** The world at the start of the task, and once [Config()] has run. *)
Definition fresh : World := mkWorld [] [].
Definition configured : World := mkWorld [] [Config_defaults].

(** The shop never lets the call [a] return. *)
Definition never_returns (env : Env) (a : Action) : Prop :=
  forall tr, fails env tr a <> None.

(** The world after [K] submit attempts in a row that all raised, if the
    next [K] attempts from [w] do raise. *)
Fixpoint failed_attempts (K : nat) (env : Env) (w : World) : option World :=
  match K with
  | O => Some w
  | S K' =>
      match attempt env w with
      | (Raised _, w') => failed_attempts K' env w'
      | _ => None
      end
  end.

(** The events of an attempt that raised: the click alone when the click
    raised, else the click and the wait. *)
Definition failed_attempt_events (d : list Event) : Prop :=
  exists e, attempt_shape (Raised e) d.

(** The events of [K + 1] attempts as the specification words them: each
    one click followed by one wait. *)
Definition claimed_attempt_actions (K : nat) : list Action :=
  concat (replicate (S K) [order_click; receipt_wait]).

(** The first call of a capture step. *)
Definition is_preview_start (a : Action) : bool :=
  match a with
  | WaitForSelector selector _ _ => String.eqb selector "#robot-preview-image"
  | _ => false
  end.

(** Number of capture steps begun among some events. *)
Definition captures_begun (d : list Event) : nat :=
  length (List.filter (fun ev => is_preview_start (action ev)) d).

(** The calls that write an output file. *)
Definition writes_output (a : Action) : bool :=
  match a with
  | Screenshot _ | HtmlToPdf _ _ | AddWatermarkImageToPdf _ _ _
  | ArchiveFolderWithZip _ _ => true
  | _ => false
  end.

(** A web shop where the first click on the Order button raises and every
    other call returns. *)
Definition click_fails_once_env : Env :=
  mkEnv (fun tr a =>
           if Action_eqb_order_click a
              && forallb (fun ev => negb (Action_eqb_order_click (action ev))) tr
           then Some timeout_error else None)
        (fun _ _ => "<div>receipt</div>") (fun _ _ => [sample_row]) ["/"; "home"; "robot"].

(** A web shop where the receipt never shows. *)
Definition no_receipt_env : Env :=
  mkEnv (fun _ a => if Action_eqb_receipt_wait a then Some timeout_error else None)
        (fun _ _ => "") (fun _ _ => [sample_row]) ["/"; "home"; "robot"].

(** The run of [process_order] on one order from world [w]: the form is
    filled; if that returned, the order is submitted; if that returned, the
    receipt is captured and the form is opened again.  [cfg] is the
    [Config] object of the run. *)
Inductive order_run (env : Env) (w : World) (cfg : Config) (order : Order)
  : Result unit -> list Event -> Prop :=
| order_fill_raised e d :
    calls_run env w (fill_plan order) (Raised e) d ->
    order_run env w cfg order (Raised e) d
| order_submit_raised d1 d2 e :
    calls_run env w (fill_plan order) (Ok tt) d1 ->
    submit_with_retries env (extend w d1) = (Raised e, extend w (d1 ++ d2)) ->
    submit_events d2 ->
    order_run env w cfg order (Raised e) (d1 ++ d2)
| order_captured d1 d2 html r d3 :
    calls_run env w (fill_plan order) (Ok tt) d1 ->
    submit_with_retries env (extend w d1) = (Ok tt, extend w (d1 ++ d2)) ->
    submit_events d2 ->
    calls_run env (extend w (d1 ++ d2))
      (capture_plan (cwd env) cfg order html ++ return_plan) r d3 ->
    order_run env w cfg order r (d1 ++ d2 ++ d3).

(** The run of [fill_and_submit_sales_form]: the orders one after the other,
    up to the first one whose processing does not return. *)
Inductive batch_run (env : Env) (cfg : Config)
  : World -> list Order -> Result unit -> list Event -> Prop :=
| batch_done w :
    batch_run env cfg w [] (Ok tt) []
| batch_stop w order rest e d :
    order_run env w cfg order (Raised e) d ->
    batch_run env cfg w (order :: rest) (Raised e) d
| batch_next w order rest d1 r d2 :
    order_run env w cfg order (Ok tt) d1 ->
    batch_run env cfg (extend w d1) rest r d2 ->
    batch_run env cfg w (order :: rest) r (d1 ++ d2).

(** Worlds of the sample runs: the form filled for the sample order, and
    what the submit attempts add to it. *)
Definition form_filled : World :=
  mkWorld (map (fun a => mkEvent a None) (fill_plan sample_order)) [Config_defaults].

Definition one_failed_click : World :=
  extend form_filled [mkEvent order_click (Some timeout_error)].

Definition submitted_on_retry : World :=
  extend form_filled
    [mkEvent order_click (Some timeout_error);
     mkEvent order_click None; mkEvent receipt_wait None].

Definition waited_in_vain (n : nat) : World :=
  extend form_filled
    (concat (replicate n [mkEvent order_click None;
                          mkEvent receipt_wait (Some timeout_error)])).

(** ** Notions for the ingestion and the whole task *)

(** The columns [get_orders] reads from every row. *)
Definition expected_columns : list string :=
  ["Order number"; "Head"; "Body"; "Legs"; "Address"].

(** The row has no cell in column [key]. *)
Definition lacks (row : Row) (key : string) : Prop :=
  if decide (key = "Order number") then int_cells row !! key = None
  else str_cells row !! key = None.

(** The order a row with all expected columns stands for. *)
Definition row_order (row : Row) : option Order :=
  match int_cells row !! "Order number", str_cells row !! "Head",
        str_cells row !! "Body", str_cells row !! "Legs",
        str_cells row !! "Address" with
  | Some n, Some h, Some b, Some l, Some a => Some (mkOrder n h b l a)
  | _, _, _, _, _ => None
  end.

(** The first expected column a row lacks, in the order [get_orders] reads
    them. *)
Definition missing_column (row : Row) : option string :=
  match int_cells row !! "Order number" with
  | None => Some "Order number"
  | Some _ =>
  match str_cells row !! "Head" with
  | None => Some "Head"
  | Some _ =>
  match str_cells row !! "Body" with
  | None => Some "Body"
  | Some _ =>
  match str_cells row !! "Legs" with
  | None => Some "Legs"
  | Some _ =>
  match str_cells row !! "Address" with
  | None => Some "Address"
  | Some _ => None
  end end end end end.

(** The rows are those of a table with the header [columns]: a row has a
    cell in a column exactly when the header names the column.  Stated for
    the expected columns, the only ones the script reads.  A file with
    nothing but a header line is the table without rows, whatever the
    header. *)
Definition has_header (columns : list string) (rows : list Row) : Prop :=
  forall row key,
    row ∈ rows -> key ∈ expected_columns -> (lacks row key <-> key ∉ columns).

(** The world once [Config()] has run in [w]. *)
Definition allocated (w : World) : World :=
  {| trace := trace w; heap := heap w ++ [Config_defaults] |}.

(** The calls of the task around the batch. *)
Definition download_call : Action :=
  Download "https://robotsparebinindustries.com/orders.csv" "orders.csv" true.

Definition read_call : Action := ReadTableFromCsv "orders.csv".

Definition opening_plan : list Action :=
  [Goto "https://robotsparebinindustries.com/#robot-order";
   Click "button:text('OK')" None].

Definition archive_call (cwd : Path) : Action :=
  ArchiveFolderWithZip (cwd ++ ["output"; "receipts"]) (cwd ++ ["output"; "receipts.zip"]).

(** The run of the task from the world [w1] in which the [Config] object has
    just been made: what it returns or raises, and its events. *)
Inductive task_run (env : Env) (w1 : World) : Result unit -> list Event -> Prop :=
| task_download_raised e :
    fails env (trace w1) download_call = Some e ->
    task_run env w1 (Raised e) [mkEvent download_call (Some e)]
| task_read_raised e :
    fails env (trace w1) download_call = None ->
    fails env (trace w1 ++ [mkEvent download_call None]) read_call = Some e ->
    task_run env w1 (Raised e) [mkEvent download_call None; mkEvent read_call (Some e)]
| task_column_missing before row after key :
    fails env (trace w1) download_call = None ->
    fails env (trace w1 ++ [mkEvent download_call None]) read_call = None ->
    csv_rows env (trace w1 ++ [mkEvent download_call None]) "orders.csv"
    = before ++ row :: after ->
    Forall (fun row => missing_column row = None) before ->
    missing_column row = Some key ->
    task_run env w1 (Raised (KeyError key))
      [mkEvent download_call None; mkEvent read_call None]
| task_opening_raised orders e d :
    fails env (trace w1) download_call = None ->
    fails env (trace w1 ++ [mkEvent download_call None]) read_call = None ->
    Forall2 (fun row order => row_order row = Some order)
      (csv_rows env (trace w1 ++ [mkEvent download_call None]) "orders.csv") orders ->
    calls_run env (extend w1 [mkEvent download_call None; mkEvent read_call None])
      opening_plan (Raised e) d ->
    task_run env w1 (Raised e)
      ([mkEvent download_call None; mkEvent read_call None] ++ d)
| task_batch_raised orders e d :
    fails env (trace w1) download_call = None ->
    fails env (trace w1 ++ [mkEvent download_call None]) read_call = None ->
    Forall2 (fun row order => row_order row = Some order)
      (csv_rows env (trace w1 ++ [mkEvent download_call None]) "orders.csv") orders ->
    batch_run env Config_defaults
      (extend w1 ([mkEvent download_call None; mkEvent read_call None]
                  ++ map (fun a => mkEvent a None) opening_plan))
      orders (Raised e) d ->
    task_run env w1 (Raised e)
      ([mkEvent download_call None; mkEvent read_call None]
       ++ map (fun a => mkEvent a None) opening_plan ++ d)
| task_archived orders d r d_zip :
    fails env (trace w1) download_call = None ->
    fails env (trace w1 ++ [mkEvent download_call None]) read_call = None ->
    Forall2 (fun row order => row_order row = Some order)
      (csv_rows env (trace w1 ++ [mkEvent download_call None]) "orders.csv") orders ->
    batch_run env Config_defaults
      (extend w1 ([mkEvent download_call None; mkEvent read_call None]
                  ++ map (fun a => mkEvent a None) opening_plan))
      orders (Ok tt) d ->
    calls_run env
      (extend w1 ([mkEvent download_call None; mkEvent read_call None]
                  ++ map (fun a => mkEvent a None) opening_plan ++ d))
      [archive_call (cwd env)] r d_zip ->
    task_run env w1 r
      ([mkEvent download_call None; mkEvent read_call None]
       ++ map (fun a => mkEvent a None) opening_plan ++ d ++ d_zip).

(** ** Notions for the frame and the failure properties *)

(** A computation leaves the store of [Config] objects as it found it. *)
Definition keeps_heap {A} (m : M A) : Prop :=
  forall env w, heap (snd (m env w)) = heap w.

(** No call outside of the submit attempts raised. *)
Definition quiet (d : list Event) : Prop :=
  Forall (fun ev => raised ev = None \/ is_submit_action (action ev) = true) d.

(** A run in which a call outside of the submit attempts can only have
    raised as the very last event, its error being the result of the run. *)
Definition orderly (r : Result unit) (d : list Event) : Prop :=
  quiet d \/
  exists d0 a e, r = Raised e /\ d = d0 ++ [mkEvent a (Some e)] /\ quiet d0.

(** A web shop whose modal cannot be closed. *)
Definition stuck_modal_env : Env :=
  mkEnv (fun _ a =>
           match a with
           | Click selector None =>
               if String.eqb selector "button:text('OK')"
               then Some (LibraryError "Timeout 30000ms exceeded.") else None
           | _ => None
           end)
        (fun _ _ => "<div>receipt</div>") (fun _ _ => [sample_row; sample_row])
        ["/"; "home"; "robot"].

(** A web shop whose "Order another robot" button cannot be clicked. *)
Definition stuck_back_button_env : Env :=
  mkEnv (fun _ a =>
           match a with
           | Click selector _ =>
               if String.eqb selector "button:text('Order another robot')"
               then Some timeout_error else None
           | _ => None
           end)
        (fun _ _ => "<div>receipt</div>") (fun _ _ => [sample_row; sample_row])
        ["/"; "home"; "robot"].

(** ** The files a run produces *)

(** The PDF files rendered by the calls that returned, oldest first. *)
Definition receipts_rendered (d : list Event) : list Path :=
  omap (fun ev =>
          match raised ev, action ev with
          | None, HtmlToPdf _ output_path => Some output_path
          | _, _ => None
          end) d.

(** The screenshot files taken by the calls that returned, oldest first. *)
Definition screenshots_taken (d : list Event) : list Path :=
  omap (fun ev =>
          match raised ev, action ev with
          | None, Screenshot path => Some path
          | _, _ => None
          end) d.

(** The overlays made by the calls that returned: the image, the PDF it is
    laid over and the PDF written. *)
Definition overlays_made (d : list Event) : list (Path * Path * Path) :=
  omap (fun ev =>
          match raised ev, action ev with
          | None, AddWatermarkImageToPdf image source output => Some (image, source, output)
          | _, _ => None
          end) d.

(** A web shop where the receipt shows at the fourth wait only. *)
Definition slow_receipt_env : Env :=
  mkEnv (fun tr a =>
           if Action_eqb_receipt_wait a
              && (length (List.filter (fun ev => Action_eqb_receipt_wait (action ev)) tr) <? 3)%nat
           then Some timeout_error else None)
        (fun _ _ => "<div>receipt</div>") (fun _ _ => [sample_row]) ["/"; "home"; "robot"].

(** A table whose second row has no Legs column. *)
Definition legless_row : Row :=
  mkRow {[ "Order number" := 2 ]}
        {[ "Head" := "1"; "Body" := "2"; "Address" := "Main St 2" ]}.

Definition legless_env : Env :=
  mkEnv (fun _ _ => None) (fun _ _ => "<div>receipt</div>")
        (fun _ _ => [sample_row; legless_row]) ["/"; "home"; "robot"].

(** A table with the header [Order number, Head, Body, Address] and one
    row: the Legs column is missing. *)
Definition legless_table_env : Env :=
  mkEnv (fun _ _ => None) (fun _ _ => "<div>receipt</div>")
        (fun _ _ => [legless_row]) ["/"; "home"; "robot"].

(** ** Further notions: the submit attempts, the vocabulary of a run *)

(** The events of the submit attempts of one [submit_order]: some attempts
    that raised, then either one that returned or nothing more. *)
Inductive attempts_run : Result unit -> nat -> list Event -> Prop :=
| attempts_returned ds :
    Forall failed_attempt_events ds ->
    attempts_run (Ok tt) (S (length ds))
      (concat ds ++ [mkEvent order_click None; mkEvent receipt_wait None])
| attempts_exhausted e0 d0 ds :
    attempt_shape (Raised e0) d0 ->
    Forall failed_attempt_events ds ->
    attempts_run (Raised (Exception (exhausted_message e0))) (S (length ds))
      (d0 ++ concat ds).

(** The calls with a bounded wait: a wait for a selector waits for it to be
    visible for 1000 or 5000 ms, a click with a timeout for 1000 ms. *)
Definition bounded_wait (a : Action) : bool :=
  match a with
  | WaitForSelector _ state timeout =>
      String.eqb state "visible" && ((timeout =? 1000) || (timeout =? 5000))
  | Click _ (Some timeout) => timeout =? 1000
  | _ => true
  end.

Definition is_archive (a : Action) : bool :=
  match a with
  | ArchiveFolderWithZip _ _ => true
  | _ => false
  end.




(** A row that carries the fields of [order], on top of the cells of
    [other]. *)
Definition row_with (order : Order) (other : Row) : Row :=
  mkRow (<[ "Order number" := order_number order ]> (int_cells other))
        (<[ "Head" := head order ]>
           (<[ "Body" := body order ]>
              (<[ "Legs" := legs order ]>
                 (<[ "Address" := address order ]> (str_cells other))))).

(** A web shop with an empty table. *)
Definition empty_table_env : Env :=
  mkEnv (fun _ _ => None) (fun _ _ => "") (fun _ _ => []) ["/"; "home"; "robot"].

(** A web shop with two orders where the PDF of the second one cannot be
    rendered. *)
Definition second_pdf_fails_env : Env :=
  mkEnv (fun tr a =>
           match a with
           | HtmlToPdf _ _ =>
               if (1 <=? length (receipts_rendered tr))%nat
               then Some (LibraryError "cannot render") else None
           | _ => None
           end)
        (fun _ _ => "<div>receipt</div>")
        (fun _ _ => [sample_row; row_with head_3_order sample_row])
        ["/"; "home"; "robot"].
(** * Proofs *)

(** ** Basic facts about the monad *)

Lemma extend_nil w : extend w [] = w.
Proof. destruct w; unfold extend; cbn. by rewrite app_nil_r. Qed.

Lemma extend_extend w d1 d2 : extend (extend w d1) d2 = extend w (d1 ++ d2).
Proof. unfold extend; cbn. by rewrite app_assoc. Qed.

Lemma record_extend a r w : record a r w = extend w [mkEvent a r].
Proof. reflexivity. Qed.

Lemma call_cases a env w :
  (fails env (trace w) a = None /\ call a env w = (Ok tt, extend w [mkEvent a None])) \/
  (exists e, fails env (trace w) a = Some e /\
             call a env w = (Raised e, extend w [mkEvent a (Some e)])).
Proof.
  unfold call. rewrite !record_extend.
  destruct (fails env (trace w) a) as [e|]; [right; eauto | left; auto].
Qed.

(** Case analysis on the next library call of the goal. *)
Ltac next_call :=
  match goal with
  | |- context [call ?a ?env ?w] =>
      let e := fresh "e" in
      let Hf := fresh "Hfails" in
      let Hc := fresh "Hcall" in
      destruct (call_cases a env w) as [[Hf Hc] | [e [Hf Hc]]];
      rewrite Hc; clear Hc; cbn [bind try_except ret raise fst snd]
  end.

Lemma attempt_cases env w :
  exists r d, attempt env w = (r, extend w d) /\ attempt_shape r d.
Proof.
  unfold attempt, click_order, wait_for_receipt, bind.
  next_call; [next_call|]; rewrite ?extend_extend;
    eexists _, _; (split; [reflexivity|]); constructor.
Qed.

(** ** The submit loop is the bounded retry *)

Lemma bind_assoc {A B C} (m : M A) (f : A -> M B) (g : B -> M C) env w :
  bind (bind m f) g env w = bind m (fun a => bind (f a) g) env w.
Proof. unfold bind. by destruct (m env w) as [[]]. Qed.

Lemma retry_pass e s env w :
  retry_count s + 1 <= max_retries ->
  retry_body e s env w =
    match attempt env w with
    | (Ok _, w') => (Ok (mkSubmitState true (retry_count s + 1)), w')
    | (Raised _, w') => (Ok (mkSubmitState (success s) (retry_count s + 1)), w')
    | (OutOfFuel, w') => (OutOfFuel, w')
    | (BadRef, w') => (BadRef, w')
    end.
Proof.
  intros Hle. unfold retry_body.
  apply Z.leb_le in Hle. rewrite Hle.
  unfold try_except. rewrite <- bind_assoc. fold attempt.
  unfold bind at 1. by destruct (attempt env w) as [[]].
Qed.

Lemma retry_loop (n : nat) : forall fuel e env w,
  (n <= 3)%nat ->
  (S n <= fuel)%nat ->
  (while fuel (fun s => negb (success s)) (retry_body e)
     (mkSubmitState false (3 - Z.of_nat n)) ;; ret tt) env w
  = retry n e env w.
Proof.
  induction n as [|n IH]; intros fuel e env w Hn Hfuel;
    (destruct fuel as [|fuel]; [lia|]).
  - cbn [while success negb retry]. unfold bind at 1 2, retry_body.
    cbn [retry_count]. replace (3 - Z.of_nat 0 + 1 <=? max_retries) with false; [done|].
    symmetry. apply Z.leb_gt. unfold max_retries. lia.
  - cbn [while success negb retry].
    unfold bind at 1 2. rewrite retry_pass by (cbn; unfold max_retries; lia).
    cbn [retry_count success].
    replace (3 - Z.of_nat (S n) + 1) with (3 - Z.of_nat n) by lia.
    unfold try_except.
    destruct (attempt_cases env w) as (r & d & Hrun & Hshape).
    rewrite Hrun. specialize (IH fuel e env (extend w d)).
    unfold bind in IH.
    destruct Hshape.
    + apply IH; lia.
    + apply IH; lia.
    + destruct fuel as [|fuel]; [lia|]. reflexivity.
Qed.

Lemma submit_order_retry (extra : nat) env w :
  submit_order (4 + extra) env w = submit_with_retries env w.
Proof.
  unfold submit_order, submit_with_retries. fold attempt.
  unfold try_except.
  destruct (attempt env w) as [[ | e | | ] w1]; try reflexivity.
  apply (retry_loop 3); lia.
Qed.

(** ** What a submit does to the world *)

Lemma order_clicks_app d1 d2 :
  order_clicks (d1 ++ d2) = (order_clicks d1 + order_clicks d2)%nat.
Proof. unfold order_clicks. by rewrite List.filter_app, length_app. Qed.

Lemma attempt_shape_clicks r d : attempt_shape r d -> order_clicks d = 1%nat.
Proof. by destruct 1. Qed.

Lemma attempt_shape_submit r d : attempt_shape r d -> submit_events d.
Proof. destruct 1; repeat constructor. Qed.

Lemma submit_events_app d1 d2 :
  submit_events d1 -> submit_events d2 -> submit_events (d1 ++ d2).
Proof. unfold submit_events. rewrite Forall_app. auto. Qed.

Lemma retry_total (n : nat) : forall e env w,
  exists r d,
    retry n e env w = (r, extend w d) /\
    (r = Ok tt \/ exists e', r = Raised e') /\
    (order_clicks d <= n)%nat /\
    submit_events d.
Proof.
  induction n as [|n IH]; intros e env w.
  - exists (Raised (Exception (exhausted_message e))), [].
    rewrite extend_nil. repeat split; eauto. constructor.
  - cbn [retry]. unfold try_except.
    destruct (attempt_cases env w) as (r & d & -> & Hshape).
    pose proof (attempt_shape_clicks _ _ Hshape) as Hclicks.
    pose proof (attempt_shape_submit _ _ Hshape) as Hsub.
    destruct (IH e env (extend w d)) as (r' & d' & Hrun & Hres & Hle & Hsub').
    rewrite extend_extend in Hrun.
    assert (Hgo : exists r0 d0,
      retry n e env (extend w d) = (r0, extend w d0) /\
      (r0 = Ok tt \/ (exists e', r0 = Raised e')) /\
      (order_clicks d0 <= S n)%nat /\ submit_events d0).
    { exists r', (d ++ d'). rewrite order_clicks_app.
      repeat split; auto using submit_events_app. lia. }
    destruct Hshape; try exact Hgo.
    exists (Ok tt), [mkEvent order_click None; mkEvent receipt_wait None].
    repeat split; auto. cbn. lia.
Qed.

Lemma submit_with_retries_total env w :
  exists r d,
    submit_with_retries env w = (r, extend w d) /\
    (r = Ok tt \/ exists e', r = Raised e') /\
    (1 <= order_clicks d <= 4)%nat /\
    submit_events d.
Proof.
  unfold submit_with_retries, try_except.
  destruct (attempt_cases env w) as (r & d & -> & Hshape).
  pose proof (attempt_shape_clicks _ _ Hshape) as Hclicks.
  pose proof (attempt_shape_submit _ _ Hshape) as Hsub.
  assert (Hgo : forall e, exists r0 d0,
    retry 3 e env (extend w d) = (r0, extend w d0) /\
    (r0 = Ok tt \/ (exists e', r0 = Raised e')) /\
    (1 <= order_clicks d0 <= 4)%nat /\ submit_events d0).
  { intros e.
    destruct (retry_total 3 e env (extend w d)) as (r' & d' & Hrun & Hres & Hle & Hsub').
    rewrite extend_extend in Hrun.
    exists r', (d ++ d'). rewrite order_clicks_app.
    repeat split; auto using submit_events_app; lia. }
  destruct Hshape; try apply Hgo.
  exists (Ok tt), [mkEvent order_click None; mkEvent receipt_wait None].
  repeat split; auto; cbn; lia.
Qed.

(** C8.  For every environment and every world, [submit_order] with a budget
    of at least four loop tests does not run out of budget: it returns or
    raises, the same as with exactly four, after at least one and at most
    four clicks on the Order button (one per attempt), and it makes no
    other calls than those clicks and the waits for the receipt. *)
Theorem submit_order_terminates (extra : nat) (env : Env) (w : World) :
  exists r d,
    submit_order (4 + extra) env w = (r, extend w d) /\
    submit_order 4 env w = (r, extend w d) /\
    (r = Ok tt \/ exists e, r = Raised e) /\
    (1 <= order_clicks d <= 4)%nat /\
    submit_events d.
Proof.
  destruct (submit_with_retries_total env w) as (r & d & Hrun & Hres & Hclicks & Hsub).
  exists r, d. rewrite submit_order_retry.
  rewrite (submit_order_retry 0). auto.
Qed.

(** ** Paths of the output files *)

Lemma split_slash_no_slash s : has_slash s = false -> split_slash s = [s].
Proof.
  induction s as [|c s IH]; [done|]. cbn.
  destruct (Ascii.eqb c "/"); [done|]. cbn. intros Hs. by rewrite IH.
Qed.

Lemma has_slash_app s t : has_slash (s +:+ t) = has_slash s || has_slash t.
Proof. induction s as [|c s IH]; [done|]. simpl. by rewrite IH, orb_assoc. Qed.

Lemma has_slash_digit x : Ascii.eqb (pretty_N_char x) "/" = false.
Proof. unfold pretty_N_char. by repeat case_match. Qed.

Lemma has_slash_pretty_N_go x : forall s,
  has_slash s = false -> has_slash (pretty_N_go x s) = false.
Proof.
  induction (N.lt_wf_0 x) as [x _ IH]; intros s Hs.
  destruct (decide (x = 0)%N) as [->|Hx]; [by rewrite pretty_N_go_0|].
  rewrite pretty_N_go_step by lia.
  apply IH; [apply N.div_lt; lia|]. cbn. by rewrite has_slash_digit.
Qed.

Lemma has_slash_str_int n : has_slash (str_int n) = false.
Proof.
  unfold str_int, pretty, pretty_Z.
  destruct n as [|p|p]; [done| |];
    unfold pretty, pretty_positive, pretty, pretty_N; cbn [has_slash String.append];
    (case_decide; [done|]); by apply has_slash_pretty_N_go.
Qed.

Lemma Path_of_name s :
  has_slash s = false -> s <> "" -> s <> "." -> Path_of s = [s].
Proof.
  intros Hs Hne Hdot. unfold Path_of. rewrite split_slash_no_slash by done.
  assert (starts_with_slash s = false) as ->.
  { destruct s as [|c s]; [done|]. cbn in *. by destruct (Ascii.eqb c "/"). }
  rewrite filter_cons_True by done. by rewrite filter_nil.
Qed.

Lemma joinpath_name p s :
  has_slash s = false -> s <> "" -> s <> "." -> joinpath p s = p ++ [s].
Proof.
  intros Hs Hne Hdot. unfold joinpath. rewrite Path_of_name by done. cbn.
  destruct (String.eqb_spec s "/") as [->|]; done.
Qed.

Lemma joinpath_receipts p : joinpath p "receipts" = p ++ ["receipts"].
Proof. by apply joinpath_name. Qed.

Lemma joinpath_screenshots p : joinpath p "screenshots" = p ++ ["screenshots"].
Proof. by apply joinpath_name. Qed.

Lemma joinpath_receipt_name p n :
  joinpath p ("receipt-" +:+ str_int n +:+ ".pdf")
  = p ++ ["receipt-" +:+ str_int n +:+ ".pdf"].
Proof.
  apply joinpath_name; [|done..].
  by rewrite !has_slash_app, has_slash_str_int.
Qed.

Lemma joinpath_robot_name p n :
  joinpath p ("robot-" +:+ str_int n +:+ ".png")
  = p ++ ["robot-" +:+ str_int n +:+ ".png"].
Proof.
  apply joinpath_name; [|done..].
  by rewrite !has_slash_app, has_slash_str_int.
Qed.

Lemma absolute_from_app cwd p (name : string) q :
  name <> "/" -> absolute_from cwd (p ++ name :: q) = absolute_from cwd p ++ name :: q.
Proof.
  intros Hname. unfold absolute_from. destruct p as [|root p]; cbn.
  - destruct (String.eqb_spec name "/"); [done|]. by rewrite app_nil_r.
  - destruct (String.eqb root "/"); [reflexivity|]. by rewrite <- app_assoc.
Qed.

Lemma receipt_file_eq cwd cfg order :
  absolute_from cwd
    (joinpath (joinpath (output_dir cfg) "receipts")
       ("receipt-" +:+ str_int (order_number order) +:+ ".pdf"))
  = receipt_file cwd cfg order.
Proof.
  rewrite joinpath_receipts, joinpath_receipt_name, <- app_assoc.
  by apply absolute_from_app.
Qed.

Lemma screenshot_file_eq cwd cfg order :
  absolute_from cwd
    (joinpath (joinpath (output_dir cfg) "screenshots")
       ("robot-" +:+ str_int (order_number order) +:+ ".png"))
  = screenshot_file cwd cfg order.
Proof.
  rewrite joinpath_screenshots, joinpath_robot_name, <- app_assoc.
  by apply absolute_from_app.
Qed.

(** ** Plans of calls *)

Lemma calls_run_app_ok env p1 d1 w :
  calls_run env w p1 (Ok tt) d1 ->
  forall p2 r d2,
    calls_run env (extend w d1) p2 r d2 -> calls_run env w (p1 ++ p2) r (d1 ++ d2).
Proof.
  intros H. remember (Ok tt) as r1 eqn:Hr1.
  induction H as [w|w a rest e Hf|w a rest r d Hf H IH]; intros p2 r2 d2 H2.
  - by rewrite extend_nil in H2.
  - done.
  - cbn. constructor; [done|]. apply IH; [done|]. by rewrite extend_extend.
Qed.

Lemma calls_run_app_raised env w p1 e d1 p2 :
  calls_run env w p1 (Raised e) d1 -> calls_run env w (p1 ++ p2) (Raised e) d1.
Proof.
  intros H. remember (Raised e) as r1 eqn:Hr1.
  induction H; [done| |].
  - injection Hr1 as ->. by constructor.
  - cbn. constructor; auto.
Qed.

Lemma calls_run_result env w plan r d :
  calls_run env w plan r d -> r = Ok tt \/ exists e, r = Raised e.
Proof. induction 1; eauto. Qed.

Lemma calls_run_ok env w plan d :
  calls_run env w plan (Ok tt) d -> d = map (fun a => mkEvent a None) plan.
Proof.
  intros H. remember (Ok tt) as r eqn:Hr.
  induction H; [done|done|]. cbn. f_equal. auto.
Qed.

Lemma calls_run_raised env w plan e d :
  calls_run env w plan (Raised e) d ->
  exists before a after,
    plan = before ++ a :: after /\
    d = map (fun a => mkEvent a None) before ++ [mkEvent a (Some e)].
Proof.
  intros H. remember (Raised e) as r eqn:Hr.
  induction H as [w|w a rest e' Hf|w a rest r d Hf H IH]; [done| |].
  - injection Hr as ->. by exists [], a, rest.
  - destruct (IH Hr) as (before & a' & after & -> & ->).
    by exists (a :: before), a', after.
Qed.

Lemma calls_run_prefix env w plan r d :
  calls_run env w plan r d -> map action d `prefix_of` plan.
Proof.
  induction 1; cbn.
  - done.
  - by exists rest.
  - by apply prefix_cons.
Qed.

(** A call of the plan that raises whenever it is made stops the run at
    the latest there. *)
Lemma calls_run_never env a p1 p2 :
  a ∈ p1 ->
  (forall tr, fails env tr a <> None) ->
  forall w r d,
    calls_run env w (p1 ++ p2) r d ->
    exists e, r = Raised e /\ calls_run env w p1 (Raised e) d.
Proof.
  intros Hin Hnever. induction p1 as [|x p1 IH]; intros w r d Hrun.
  - by apply elem_of_nil in Hin.
  - cbn in Hrun. inversion Hrun as [|? ? ? e Hf|? ? ? ? d' Hf Hrest]; subst.
    + exists e. split; [done|]. by constructor.
    + apply elem_of_cons in Hin as [->|Hin]; [by destruct (Hnever (trace w))|].
      destruct (IH Hin _ _ _ Hrest) as (e & -> & Hrun').
      exists e. split; [done|]. by constructor.
Qed.

(** Finishing a goal about a run after all calls have been decided. *)
Ltac close_run :=
  rewrite ?extend_extend;
  eexists _, _; split; [reflexivity|]; cbn [app];
  repeat (econstructor; try eassumption).

Lemma fill_order_form_run order env w :
  exists r d,
    fill_order_form order env w = (r, extend w d) /\
    calls_run env w (fill_plan order) r d.
Proof.
  unfold fill_order_form, fill_plan, bind. repeat next_call; close_run.
Qed.

Lemma truthy_eqb s : truthy s = negb (String.eqb s "").
Proof. by destruct s. Qed.

Lemma await_robot_preview_run head body legs timeout env w :
  exists r d,
    await_robot_preview head body legs timeout env w = (r, extend w d) /\
    calls_run env w (preview_waits head body legs timeout) r d.
Proof.
  unfold await_robot_preview, preview_waits, part_wait.
  fold (preview_container_wait timeout) (head_wait head timeout)
       (body_wait body timeout) (legs_wait legs timeout).
  rewrite !truthy_eqb.
  destruct (String.eqb head ""), (String.eqb body ""), (String.eqb legs "");
    cbn [negb app]; unfold bind, ret; repeat next_call; close_run.
Qed.

Lemma getattr_ok {A} (field : Config -> A) config cfg env w :
  heap w !! config = Some cfg -> getattr config field env w = (Ok (field cfg), w).
Proof. unfold getattr. by intros ->. Qed.

Lemma inner_html_cases selector env w :
  (fails env (trace w) (InnerHtml selector) = None /\
   inner_html selector env w
   = (Ok (page_html env (trace w) selector), extend w [mkEvent (InnerHtml selector) None])) \/
  (exists e, fails env (trace w) (InnerHtml selector) = Some e /\
             inner_html selector env w
             = (Raised e, extend w [mkEvent (InnerHtml selector) (Some e)])).
Proof.
  unfold inner_html. rewrite !record_extend.
  destruct (fails env (trace w) (InnerHtml selector)) as [e|]; [right; eauto | left; auto].
Qed.

Lemma screenshot_robot_run order config cfg env w :
  heap w !! config = Some cfg ->
  let shot := screenshot_file (cwd env) cfg order in
  let plan := preview_waits (head order) (body order) (legs order) default_timeout
              ++ [Screenshot shot] in
  exists r d,
    screenshot_robot order config env w = (r, extend w d) /\
    ((r = Ok shot /\ calls_run env w plan (Ok tt) d) \/
     (exists e, r = Raised e /\ calls_run env w plan (Raised e) d)).
Proof.
  intros Hcfg shot plan. unfold screenshot_robot.
  unfold bind at 1. rewrite (getattr_ok _ _ _ _ _ Hcfg).
  unfold bind at 1, absolute. rewrite screenshot_file_eq. fold shot.
  unfold bind at 1.
  destruct (await_robot_preview_run (head order) (body order) (legs order)
              default_timeout env w) as (r & d & -> & Hrun).
  destruct (calls_run_result _ _ _ _ _ Hrun) as [-> | [e ->]].
  - unfold bind, ret. next_call; rewrite extend_extend.
    + eexists _, _. split; [reflexivity|]. left. split; [done|].
      eapply calls_run_app_ok; [done|]. repeat (econstructor; try eassumption).
    + eexists _, _. split; [reflexivity|]. right. exists e. split; [done|].
      eapply calls_run_app_ok; [done|]. repeat (econstructor; try eassumption).
  - eexists _, _. split; [reflexivity|]. right. exists e. split; [done|].
    by apply calls_run_app_raised.
Qed.

Lemma store_receipt_as_pdf_run order config cfg env w :
  heap w !! config = Some cfg ->
  exists r d html,
    store_receipt_as_pdf order config env w = (r, extend w d) /\
    calls_run env w (capture_plan (cwd env) cfg order html) r d.
Proof.
  intros Hcfg. unfold store_receipt_as_pdf, capture_plan.
  unfold bind at 1.
  destruct (screenshot_robot_run order config cfg env w Hcfg)
    as (r & d & -> & [[-> Hrun] | [e [-> Hrun]]]).
  - unfold bind at 1.
    destruct (inner_html_cases "#receipt" env (extend w d)) as [[Hhtml ->] | [e [Hhtml ->]]].
    + unfold bind at 1.
      rewrite (getattr_ok _ _ cfg) by done.
      unfold bind at 1, absolute. rewrite receipt_file_eq.
      unfold embed_screenshot_to_receipt, bind.
      repeat next_call; rewrite ?extend_extend;
        (eexists _, _, _; split; [reflexivity|]);
        rewrite (cons_middle (Screenshot _)), app_assoc;
        (eapply calls_run_app_ok; [done|]);
        repeat (econstructor; try eassumption).
    + rewrite extend_extend. eexists _, _, "". split; [reflexivity|].
      rewrite (cons_middle (Screenshot _)), app_assoc.
      eapply calls_run_app_ok; [done|]. by constructor.
  - eexists _, _, "". split; [reflexivity|].
    rewrite (cons_middle (Screenshot _)), app_assoc. by apply calls_run_app_raised.
Qed.

(** ** The preview wait *)

Lemma wait_kinds_differ (p q : string) (t t' : Z) :
  head_wait p t <> body_wait q t' /\ head_wait p t <> legs_wait q t' /\
  body_wait p t <> legs_wait q t' /\ body_wait p t <> head_wait q t' /\
  legs_wait p t <> head_wait q t' /\ legs_wait p t <> body_wait q t' /\
  head_wait p t <> preview_container_wait t' /\
  body_wait p t <> preview_container_wait t' /\
  legs_wait p t <> preview_container_wait t'.
Proof.
  unfold head_wait, body_wait, legs_wait, preview_container_wait.
  repeat split; intros H; injection H as Hsel; simpl in Hsel; discriminate Hsel.
Qed.

Lemma elem_of_part_wait a wait part t :
  a ∈ part_wait wait part t -> part <> "" /\ a = wait part t.
Proof.
  unfold part_wait. destruct (String.eqb_spec part "") as [->|Hne].
  - by intros ?%elem_of_nil.
  - by intros ->%list_elem_of_singleton.
Qed.

Lemma elem_of_preview_waits a head body legs t :
  a ∈ preview_waits head body legs t ->
  a = preview_container_wait t \/
  (head <> "" /\ a = head_wait head t) \/
  (body <> "" /\ a = body_wait body t) \/
  (legs <> "" /\ a = legs_wait legs t).
Proof.
  unfold preview_waits. rewrite elem_of_cons, !elem_of_app.
  intros [->|[H|[H|H]]]; [auto|..]; apply elem_of_part_wait in H; auto.
Qed.

Lemma calls_run_elem_of env w plan r d ev :
  calls_run env w plan r d -> ev ∈ d -> action ev ∈ plan.
Proof.
  intros Hrun Hev. apply calls_run_prefix in Hrun as [rest ->].
  apply elem_of_app. left. by apply list_elem_of_fmap_2.
Qed.

(** C10.  For all part identifiers, every timeout, every environment and
    world: [await_robot_preview] makes, in order and up to the first one
    that raises, the wait for the preview container and the waits for the
    parts whose identifier is not the empty string, and nothing else.  For a
    part whose identifier is the empty string no wait is made, so none can
    raise. *)
Theorem await_robot_preview_skips_empty_parts
    (head body legs : string) (timeout : Z) (env : Env) (w : World) :
  exists r d,
    await_robot_preview head body legs timeout env w = (r, extend w d) /\
    calls_run env w (preview_waits head body legs timeout) r d /\
    (head = "" -> forall ev, ev ∈ d -> action ev <> head_wait head timeout) /\
    (body = "" -> forall ev, ev ∈ d -> action ev <> body_wait body timeout) /\
    (legs = "" -> forall ev, ev ∈ d -> action ev <> legs_wait legs timeout).
Proof.
  destruct (await_robot_preview_run head body legs timeout env w) as (r & d & Hrun & Hplan).
  exists r, d. split; [done|]. split; [done|].
  pose proof (wait_kinds_differ) as Hdiff.
  repeat split; intros -> ev Hev Heq;
    apply (calls_run_elem_of _ _ _ _ _ _ Hplan) in Hev;
    rewrite Heq in Hev;
    apply elem_of_preview_waits in Hev as [H|[[Hne H]|[[Hne H]|[Hne H]]]];
    try done; by eapply Hdiff.
Qed.

Lemma await_robot_preview_skips_empty_parts_witness :
  exists r d,
    await_robot_preview "" "2" "3" 5000 no_head_image_env configured
    = (r, extend configured d) /\
    calls_run no_head_image_env configured (preview_waits "" "2" "3" 5000) r d /\
    forall ev, ev ∈ d -> action ev <> head_wait "" 5000.
Proof.
  destruct (await_robot_preview_skips_empty_parts "" "2" "3" 5000
              no_head_image_env configured) as (r & d & Hrun & Hplan & Hhead & _).
  exists r, d. split; [exact Hrun|]. split; [exact Hplan|].
  apply Hhead. reflexivity.
Defined.

(** ** The capture step *)

(** C3, as stated, fails: on the sample order, in a shop where every call
    returns, the capture step waits for the preview and takes the screenshot
    before it reads the receipt HTML. *)
Lemma capture_order_counterexample :
  let run := store_receipt_as_pdf sample_order 0 calm_env configured in
  fst run = Ok tt /\
  map action (trace (snd run)) =
    [WaitForSelector "#robot-preview-image" "visible" 5000;
     WaitForSelector "#robot-preview-image img[src='/heads/1.png']" "visible" 5000;
     WaitForSelector "#robot-preview-image img[src='/bodies/2.png']" "visible" 5000;
     WaitForSelector "#robot-preview-image img[src='/legs/3.png']" "visible" 5000;
     Screenshot ["/"; "home"; "robot"; "output"; "screenshots"; "robot-1.png"];
     InnerHtml "#receipt";
     HtmlToPdf "<div>receipt</div>"
       ["/"; "home"; "robot"; "output"; "receipts"; "receipt-1.pdf"];
     AddWatermarkImageToPdf
       ["/"; "home"; "robot"; "output"; "screenshots"; "robot-1.png"]
       ["/"; "home"; "robot"; "output"; "receipts"; "receipt-1.pdf"]
       ["/"; "home"; "robot"; "output"; "receipts"; "receipt-1.pdf"]] /\
  ~ claimed_capture_order (map action (trace (snd run))).
Proof.
  split; [reflexivity|]. split; [reflexivity|].
  intros (html & pdf & waits & shot & H). vm_compute in H. discriminate H.
Qed.

(** The events before a given one in a run of a plan all returned. *)
Lemma calls_run_returned_before env w plan r d :
  calls_run env w plan r d ->
  forall d0 ev d2,
    d = d0 ++ ev :: d2 -> d0 = map (fun a => mkEvent a None) (map action d0).
Proof.
  induction 1 as [w|w a rest e Hf|w a rest r d Hf H IH]; intros d0 ev d2 Hd.
  - by destruct d0.
  - destruct d0 as [|x d0]; [done|]. injection Hd as _ Hd. by destruct d0.
  - destruct d0 as [|x d0]; [done|]. injection Hd as <- Hd.
    cbn. f_equal. by eapply IH.
Qed.

(** An element that occurs once in a list splits it in one way only. *)
Lemma split_at_unique {A} (x : A) (l1 l2 k1 k2 : list A) :
  x ∉ l1 -> x ∉ l2 -> l1 ++ x :: l2 = k1 ++ x :: k2 -> k1 = l1.
Proof.
  revert k1. induction l1 as [|a l1 IH]; intros k1 H1 H2 Heq.
  - destruct k1 as [|y k1]; [done|]. injection Heq as -> Heq.
    destruct H2. rewrite Heq. apply elem_of_app. right. apply elem_of_cons. auto.
  - destruct k1 as [|y k1].
    + injection Heq as -> _. destruct H1. apply elem_of_cons. auto.
    + injection Heq as <- Heq. f_equal. apply IH; [|done..].
      intros Hx. apply H1. apply elem_of_cons. auto.
Qed.

Lemma inner_html_not_in_preview selector (order : Order) (shot : Path) :
  InnerHtml selector
  ∉ preview_waits (head order) (body order) (legs order) default_timeout
    ++ [Screenshot shot].
Proof.
  rewrite elem_of_app, list_elem_of_singleton.
  intros [H|H]; [|discriminate H].
  apply elem_of_preview_waits in H as [H|[[_ H]|[[_ H]|[_ H]]]]; discriminate H.
Qed.

(** The capture step follows its plan, and the HTML it renders is the one
    the page gave for [#receipt] once the preview waits and the screenshot
    had returned. *)
Lemma store_receipt_as_pdf_run_html order config cfg env w :
  heap w !! config = Some cfg ->
  let seen := map (fun a => mkEvent a None)
                (preview_waits (head order) (body order) (legs order) default_timeout
                 ++ [Screenshot (screenshot_file (cwd env) cfg order)]) in
  exists r d,
    store_receipt_as_pdf order config env w = (r, extend w d) /\
    calls_run env w
      (capture_plan (cwd env) cfg order (page_html env (trace (extend w seen)) "#receipt"))
      r d.
Proof.
  intros Hcfg seen. unfold store_receipt_as_pdf, capture_plan.
  unfold bind at 1.
  destruct (screenshot_robot_run order config cfg env w Hcfg)
    as (r & d & -> & [[-> Hrun] | [e [-> Hrun]]]).
  - pose proof (calls_run_ok _ _ _ _ Hrun) as Hd. fold seen in Hd. rewrite <- Hd.
    unfold bind at 1.
    destruct (inner_html_cases "#receipt" env (extend w d)) as [[Hhtml ->] | [e [Hhtml ->]]].
    + unfold bind at 1.
      rewrite (getattr_ok _ _ cfg) by done.
      unfold bind at 1, absolute. rewrite receipt_file_eq.
      unfold embed_screenshot_to_receipt, bind.
      repeat next_call; rewrite ?extend_extend;
        (eexists _, _; split; [reflexivity|]);
        rewrite (cons_middle (Screenshot _)), app_assoc;
        (eapply calls_run_app_ok; [done|]);
        repeat (econstructor; try eassumption).
    + rewrite extend_extend. eexists _, _. split; [reflexivity|].
      rewrite (cons_middle (Screenshot _)), app_assoc.
      eapply calls_run_app_ok; [done|]. by constructor.
  - eexists _, _. split; [reflexivity|].
    rewrite (cons_middle (Screenshot _)), app_assoc. by apply calls_run_app_raised.
Qed.

(** C3, amended.  For every order, every environment and every world in
    which [config] refers to a [Config] object, the capture step carries out
    in this order, up to the first call that raises: the wait for the
    preview container and for the parts that are given, the screenshot, the
    reading of the receipt HTML, its rendering to PDF, and the overlay of
    the screenshot on that PDF.  When it returns, all of them were made.
    The HTML that is rendered is the HTML that was read: whenever the
    reading of [#receipt] returned, [html] is what the page gave for
    [#receipt] at that moment, after the events [d0] that came before. *)
Theorem store_receipt_as_pdf_capture_order
    (order : Order) (config : ref) (cfg : Config) (env : Env) (w : World) :
  heap w !! config = Some cfg ->
  exists r d html,
    store_receipt_as_pdf order config env w = (r, extend w d) /\
    calls_run env w (capture_plan (cwd env) cfg order html) r d /\
    (r = Ok tt ->
     d = map (fun a => mkEvent a None) (capture_plan (cwd env) cfg order html)) /\
    (forall d0 d2,
       d = d0 ++ mkEvent (InnerHtml "#receipt") None :: d2 ->
       html = page_html env (trace (extend w d0)) "#receipt").
Proof.
  intros Hcfg.
  destruct (store_receipt_as_pdf_run_html order config cfg env w Hcfg)
    as (r & d & Hrun & Hplan).
  eexists r, d, _. split; [exact Hrun|]. split; [exact Hplan|]. split.
  - intros ->. by eapply calls_run_ok.
  - intros d0 d2 Hd.
    pose proof (calls_run_returned_before _ _ _ _ _ Hplan _ _ _ Hd) as Hd0.
    apply calls_run_prefix in Hplan as [rest Hrest].
    rewrite Hd, (map_app action) in Hrest. cbn [map action] in Hrest.
    unfold capture_plan in Hrest.
    rewrite (cons_middle (Screenshot _)), app_assoc, <- (app_assoc (map action d0)) in Hrest.
    cbn [app] in Hrest.
    apply split_at_unique in Hrest.
    + rewrite Hd0, Hrest. reflexivity.
    + apply inner_html_not_in_preview.
    + rewrite !elem_of_cons, elem_of_nil. intros [H|[H|[]]]; discriminate H.
Qed.

Lemma store_receipt_as_pdf_capture_order_witness :
  exists r d html,
    store_receipt_as_pdf sample_order 0 calm_env configured = (r, extend configured d) /\
    calls_run calm_env configured
      (capture_plan (cwd calm_env) Config_defaults sample_order html) r d /\
    (r = Ok tt ->
     d = map (fun a => mkEvent a None)
           (capture_plan (cwd calm_env) Config_defaults sample_order html)) /\
    (forall d0 d2,
       d = d0 ++ mkEvent (InnerHtml "#receipt") None :: d2 ->
       html = page_html calm_env (trace (extend configured d0)) "#receipt").
Proof.
  apply (store_receipt_as_pdf_capture_order sample_order 0 Config_defaults calm_env configured).
  reflexivity.
Defined.

Lemma preview_waits_are_waits a head body legs t :
  a ∈ preview_waits head body legs t ->
  exists selector, a = WaitForSelector selector "visible" t.
Proof.
  intros H. apply elem_of_preview_waits in H as [->|[[_ ->]|[[_ ->]|[_ ->]]]];
    eexists; reflexivity.
Qed.

Lemma part_wait_given wait part t : part <> "" -> part_wait wait part t = [wait part t].
Proof. unfold part_wait. by destruct (String.eqb_spec part ""). Qed.

(** C4, as stated, fails: for an order whose head identifier is the empty
    string, in a shop that never shows the image [/heads/.png], the preview
    wait does not wait for the head; [screenshot_robot] returns and the
    screenshot is taken. *)
Lemma preview_wait_counterexample :
  let run := screenshot_robot headless_order 0 no_head_image_env configured in
  never_returns no_head_image_env (head_wait (head headless_order) default_timeout) /\
  fst run = Ok ["/"; "home"; "robot"; "output"; "screenshots"; "robot-7.png"] /\
  map action (trace (snd run)) =
    [WaitForSelector "#robot-preview-image" "visible" 5000;
     WaitForSelector "#robot-preview-image img[src='/bodies/2.png']" "visible" 5000;
     WaitForSelector "#robot-preview-image img[src='/legs/3.png']" "visible" 5000;
     Screenshot ["/"; "home"; "robot"; "output"; "screenshots"; "robot-7.png"]].
Proof.
  split; [|split; reflexivity]. intros tr. discriminate.
Qed.

(** C4, amended.  For every order, every environment and every world in
    which [config] refers to a [Config] object, [screenshot_robot] waits for
    the preview container, then for the head, the body and the legs that
    are given (identifier not the empty string), each wait with the timeout
    of 5000 ms, and then takes the screenshot; the first call that raises
    ends it with that error.  If the wait for a given part raises whenever
    it is made, [screenshot_robot] raises the error of a wait with the
    5000 ms timeout, and no screenshot call is made. *)
Theorem screenshot_robot_preview_wait
    (order : Order) (config : ref) (cfg : Config) (env : Env) (w : World) :
  heap w !! config = Some cfg ->
  exists r d,
    screenshot_robot order config env w = (r, extend w d) /\
    ((r = Ok (screenshot_file (cwd env) cfg order) /\
      calls_run env w
        (preview_waits (head order) (body order) (legs order) 5000
         ++ [Screenshot (screenshot_file (cwd env) cfg order)]) (Ok tt) d) \/
     (exists e, r = Raised e /\
      calls_run env w
        (preview_waits (head order) (body order) (legs order) 5000
         ++ [Screenshot (screenshot_file (cwd env) cfg order)]) (Raised e) d)) /\
    (forall wait part,
       (wait, part) ∈ [(head_wait, head order); (body_wait, body order);
                       (legs_wait, legs order)] ->
       part <> "" ->
       never_returns env (wait part 5000) ->
       exists e selector,
         r = Raised e /\
         last d = Some (mkEvent (WaitForSelector selector "visible" 5000) (Some e)) /\
         forall ev path, ev ∈ d -> action ev <> Screenshot path).
Proof.
  intros Hcfg.
  destruct (screenshot_robot_run order config cfg env w Hcfg) as (r & d & Hrun & Hplan).
  exists r, d. split; [done|]. split; [exact Hplan|].
  intros wait part Hpart Hne Hnever.
  assert (Hin : wait part 5000
                ∈ preview_waits (head order) (body order) (legs order) 5000).
  { unfold preview_waits. rewrite elem_of_cons, !elem_of_app. right.
    rewrite !elem_of_cons in Hpart.
    destruct Hpart as [[= -> ->]|[[= -> ->]|[[= -> ->]|Hnil]]];
      [| | |by apply elem_of_nil in Hnil];
      rewrite (part_wait_given _ _ _ Hne), list_elem_of_singleton; auto. }
  assert (Hstop : exists e, r = Raised e /\
            calls_run env w (preview_waits (head order) (body order) (legs order) 5000)
              (Raised e) d).
  { destruct Hplan as [[-> Hok]|(e & -> & Hraised)].
    - destruct (calls_run_never _ _ _ _ Hin Hnever _ _ _ Hok) as (e & [=] & _).
    - destruct (calls_run_never _ _ _ _ Hin Hnever _ _ _ Hraised) as (e' & [= <-] & Hwaits).
      eauto. }
  destruct Hstop as (e & -> & Hwaits).
  destruct (calls_run_raised _ _ _ _ _ Hwaits) as (before & a & after & Heq & ->).
  assert (Ha : a ∈ preview_waits (head order) (body order) (legs order) 5000).
  { rewrite Heq, elem_of_app, elem_of_cons. auto. }
  apply preview_waits_are_waits in Ha as [selector ->].
  exists e, selector. split; [done|]. split; [by rewrite last_snoc|].
  intros ev path Hev Hshot.
  apply (calls_run_elem_of _ _ _ _ _ _ Hwaits) in Hev. rewrite Hshot in Hev.
  by apply preview_waits_are_waits in Hev as [? ?].
Qed.

(** ** Submit attempts that raise, then one that returns *)

Lemma attempt_run env w r w' :
  attempt env w = (r, w') -> exists d, w' = extend w d /\ attempt_shape r d.
Proof.
  intros H. destruct (attempt_cases env w) as (r0 & d & Hrun & Hshape).
  rewrite Hrun in H. injection H as <- <-. eauto.
Qed.

Lemma failed_attempts_retry (K : nat) : forall n e env w wK w',
  (S K <= n)%nat ->
  failed_attempts K env w = Some wK ->
  attempt env wK = (Ok tt, w') ->
  retry n e env w = (Ok tt, w').
Proof.
  induction K as [|K IH]; intros n e env w wK w' Hn Hfail Hok;
    (destruct n as [|n]; [lia|]); cbn [retry failed_attempts] in *; unfold try_except.
  - injection Hfail as ->. by rewrite Hok.
  - destruct (attempt env w) as [[ | e1 | | ] w1]; try done.
    apply (IH n e env w1 wK w'); [lia|done..].
Qed.

Lemma failed_attempts_exhaust (n : nat) : forall e env w w',
  failed_attempts n env w = Some w' ->
  retry n e env w = (Raised (Exception (exhausted_message e)), w').
Proof.
  induction n as [|n IH]; intros e env w w' Hfail; cbn [retry failed_attempts] in *.
  - by injection Hfail as ->.
  - unfold try_except. destruct (attempt env w) as [[ | e1 | | ] w1]; try done. auto.
Qed.

Lemma failed_attempts_shape (K : nat) : forall env w wK,
  failed_attempts K env w = Some wK ->
  exists ds,
    wK = extend w (concat ds) /\ length ds = K /\ Forall failed_attempt_events ds.
Proof.
  induction K as [|K IH]; intros env w wK Hfail; cbn [failed_attempts] in Hfail.
  - injection Hfail as <-. exists []. by rewrite extend_nil.
  - destruct (attempt env w) as [[ | e | | ] w1] eqn:Hrun; try done.
    apply attempt_run in Hrun as (d & -> & Hshape).
    destruct (IH _ _ _ Hfail) as (ds & -> & Hlen & Hall).
    exists (d :: ds). rewrite extend_extend. cbn. repeat split; [by rewrite Hlen|].
    constructor; [by exists e|done].
Qed.

Lemma submit_events_failed_attempts ds :
  Forall failed_attempt_events ds -> 
  submit_events (concat ds) /\ order_clicks (concat ds) = length ds.
Proof.
  induction 1 as [|d ds [e Hshape] _ [IHs IHc]]; [by split; [constructor|]|].
  cbn [concat length]. rewrite order_clicks_app, IHc, (attempt_shape_clicks _ _ Hshape).
  split; [|done]. apply submit_events_app; [|done]. by eapply attempt_shape_submit.
Qed.

(** ** One order, and the batch *)

Lemma seq_run (m1 m2 : M unit) env w p1 p2 r1 d1 :
  m1 env w = (r1, extend w d1) ->
  calls_run env w p1 r1 d1 ->
  (exists r2 d2, m2 env (extend w d1) = (r2, extend (extend w d1) d2) /\
                 calls_run env (extend w d1) p2 r2 d2) ->
  exists r d, (m1 ;; m2) env w = (r, extend w d) /\ calls_run env w (p1 ++ p2) r d.
Proof.
  intros H1 Hrun1 (r2 & d2 & H2 & Hrun2). unfold bind. rewrite H1.
  destruct (calls_run_result _ _ _ _ _ Hrun1) as [-> | [e ->]].
  - rewrite H2, extend_extend. exists r2, (d1 ++ d2). split; [done|].
    by eapply calls_run_app_ok.
  - exists (Raised e), d1. split; [done|]. by apply calls_run_app_raised.
Qed.

Lemma return_run env w :
  exists r d,
    (go_back_to_order_form ;; close_annoying_modal) env w = (r, extend w d) /\
    calls_run env w return_plan r d.
Proof.
  unfold go_back_to_order_form, close_annoying_modal, return_plan, bind.
  repeat next_call; close_run.
Qed.

Lemma capture_and_return_run order config cfg env w :
  heap w !! config = Some cfg ->
  exists r d html,
    (store_receipt_as_pdf order config ;; go_back_to_order_form ;; close_annoying_modal) env w
    = (r, extend w d) /\
    calls_run env w (capture_plan (cwd env) cfg order html ++ return_plan) r d.
Proof.
  intros Hcfg.
  destruct (store_receipt_as_pdf_run order config cfg env w Hcfg)
    as (r1 & d1 & html & H1 & Hrun1).
  destruct (seq_run (store_receipt_as_pdf order config)
              (go_back_to_order_form ;; close_annoying_modal)
              env w _ return_plan r1 d1 H1 Hrun1 (return_run env _)) as (r & d & H & Hrun).
  eauto.
Qed.

Lemma process_order_run extra order config cfg env w :
  heap w !! config = Some cfg ->
  exists r d,
    process_order (4 + extra) config order env w = (r, extend w d) /\
    order_run env w cfg order r d.
Proof.
  intros Hcfg. unfold process_order. unfold bind at 1.
  destruct (fill_order_form_run order env w) as (r1 & d1 & -> & Hfill).
  destruct (calls_run_result _ _ _ _ _ Hfill) as [-> | [e ->]].
  - unfold bind at 1. rewrite submit_order_retry.
    destruct (submit_with_retries_total env (extend w d1))
      as (r2 & d2 & Hsubmit & Hres & _ & Hevents).
    rewrite extend_extend in Hsubmit. rewrite Hsubmit.
    destruct Hres as [-> | [e ->]].
    + destruct (capture_and_return_run order config cfg env (extend w (d1 ++ d2)) Hcfg)
        as (r & d3 & html & -> & Hrun).
      rewrite extend_extend, <- app_assoc.
      exists r, (d1 ++ d2 ++ d3). split; [done|]. by eapply order_captured.
    + exists (Raised e), (d1 ++ d2). split; [done|]. by eapply order_submit_raised.
  - exists (Raised e), d1. split; [done|]. by apply order_fill_raised.
Qed.

Lemma order_run_result env w cfg order r d :
  order_run env w cfg order r d -> r = Ok tt \/ exists e, r = Raised e.
Proof. destruct 1; eauto using calls_run_result. Qed.

Lemma fill_and_submit_sales_form_run extra config cfg env (orders : list Order) :
  forall w,
    heap w !! config = Some cfg ->
    exists r d,
      fill_and_submit_sales_form (4 + extra) orders config env w = (r, extend w d) /\
      batch_run env cfg w orders r d.
Proof.
  unfold fill_and_submit_sales_form.
  induction orders as [|order rest IH]; intros w Hcfg.
  - exists (Ok tt), []. rewrite extend_nil. split; [done|]. constructor.
  - cbn [for_each]. unfold bind.
    destruct (process_order_run extra order config cfg env w Hcfg) as (r1 & d1 & -> & Hrun1).
    destruct (order_run_result _ _ _ _ _ _ Hrun1) as [-> | [e ->]].
    + destruct (IH (extend w d1) Hcfg) as (r & d2 & -> & Hrun2).
      rewrite extend_extend. exists r, (d1 ++ d2). split; [done|].
      by eapply batch_next.
    + exists (Raised e), d1. split; [done|]. by apply batch_stop.
Qed.

Lemma filter_none {A} (f : A -> bool) (l : list A) :
  (forall x, x ∈ l -> f x = false) -> List.filter f l = [].
Proof.
  induction l as [|x l IH]; intros H; [done|]. cbn.
  rewrite (H x) by (apply elem_of_cons; auto).
  apply IH. intros y Hy. apply H. apply elem_of_cons; auto.
Qed.

Lemma capture_rest_no_start a cwd cfg order html :
  a ∈ (part_wait head_wait (head order) default_timeout
       ++ part_wait body_wait (body order) default_timeout
       ++ part_wait legs_wait (legs order) default_timeout)
      ++ [Screenshot (screenshot_file cwd cfg order);
          InnerHtml "#receipt";
          HtmlToPdf html (receipt_file cwd cfg order);
          AddWatermarkImageToPdf (screenshot_file cwd cfg order)
            (receipt_file cwd cfg order) (receipt_file cwd cfg order)]
      ++ return_plan ->
  is_preview_start a = false.
Proof.
  rewrite !elem_of_app. unfold return_plan. rewrite !elem_of_cons.
  intros [[H|[H|H]]|[H|H]].
  1-3: apply elem_of_part_wait in H as [_ ->]; reflexivity.
  - destruct H as [->|[->|[->|[->|H]]]]; try reflexivity. by apply elem_of_nil in H.
  - destruct H as [->|[->|H]]; try reflexivity. by apply elem_of_nil in H.
Qed.

Lemma captures_begun_capture env w cfg order html r d :
  calls_run env w (capture_plan (cwd env) cfg order html ++ return_plan) r d ->
  captures_begun d = 1%nat.
Proof.
  unfold capture_plan, preview_waits. rewrite <- !app_assoc, <- app_comm_cons.
  rewrite (app_assoc (part_wait _ _ _)), (app_assoc (_ ++ part_wait _ _ _)).
  rewrite <- (app_assoc (part_wait _ _ _) (part_wait _ _ _)).
  intros Hrun. inversion Hrun as [|? ? ? e Hf|? ? ? ? d' Hf Hrest]; subst; [done|].
  unfold captures_begun. cbn. rewrite filter_none; [done|].
  intros ev Hev. apply (calls_run_elem_of _ _ _ _ _ _ Hrest) in Hev.
  rewrite <- app_assoc in Hev. by eapply capture_rest_no_start.
Qed.

Lemma fill_order_form_world order env w_form r w :
  fill_order_form order env w_form = (r, w) ->
  exists d, w = extend w_form d /\ calls_run env w_form (fill_plan order) r d.
Proof.
  intros H. destruct (fill_order_form_run order env w_form) as (r' & d & Hrun & Hplan).
  rewrite Hrun in H. injection H as <- <-. eauto.
Qed.

Lemma submit_after_failures (K extra : nat) env w wK w' :
  (K <= 3)%nat ->
  failed_attempts K env w = Some wK ->
  attempt env wK = (Ok tt, w') ->
  submit_order (4 + extra) env w = (Ok tt, w').
Proof.
  intros HK Hfail Hok. rewrite submit_order_retry.
  unfold submit_with_retries, try_except.
  destruct K as [|K]; cbn [failed_attempts] in Hfail.
  - injection Hfail as ->. by rewrite Hok.
  - destruct (attempt env w) as [[ | e | | ] w1]; try done.
    apply (failed_attempts_retry K 3 e env w1 wK w'); [lia|done..].
Qed.

(** C1, as stated, fails in its last part: in a shop where the first click
    on the Order button raises and the second attempt goes through, the
    first attempt is the click alone; no wait for the receipt follows it. *)
Lemma submit_attempt_counterexample :
  let events := [mkEvent order_click (Some timeout_error);
                 mkEvent order_click None; mkEvent receipt_wait None] in
  failed_attempts 1 click_fails_once_env form_filled = Some one_failed_click /\
  attempt click_fails_once_env one_failed_click = (Ok tt, submitted_on_retry) /\
  submit_order 4 click_fails_once_env form_filled = (Ok tt, extend form_filled events) /\
  map action events = [order_click; order_click; receipt_wait] /\
  map action events <> claimed_attempt_actions 1.
Proof. repeat split; try reflexivity. discriminate. Qed.

(** C1, amended.  For every order whose form was filled, every environment
    and world in which the next [K] submit attempts raise, K <= 3, and the
    attempt after them returns: [submit_order] returns, in the world that
    last attempt leaves; its events are those of the K + 1 attempts, each
    one click on the Order button followed, when the click returned, by one
    wait for [#receipt] (the last attempt is a click and a wait that both
    returned); and the order goes on to the capture step exactly once,
    right after the submit. *)
Theorem submit_order_succeeds_after_failures
    (K extra : nat) (env : Env) (order : Order) (config : ref) (cfg : Config)
    (w_form w wK w' : World) :
  (K <= 3)%nat ->
  heap w_form !! config = Some cfg ->
  fill_order_form order env w_form = (Ok tt, w) ->
  failed_attempts K env w = Some wK ->
  attempt env wK = (Ok tt, w') ->
  submit_order (4 + extra) env w = (Ok tt, w') /\
  (exists ds,
     w' = extend w (concat ds ++ [mkEvent order_click None; mkEvent receipt_wait None]) /\
     length ds = K /\
     Forall failed_attempt_events ds) /\
  (exists r d html,
     process_order (4 + extra) config order env w_form = (r, extend w' d) /\
     calls_run env w' (capture_plan (cwd env) cfg order html ++ return_plan) r d /\
     captures_begun d = 1%nat).
Proof.
  intros HK Hcfg Hfill Hfail Hok.
  pose proof (submit_after_failures K extra env w wK w' HK Hfail Hok) as Hsubmit.
  destruct (failed_attempts_shape _ _ _ _ Hfail) as (ds & -> & Hlen & Hall).
  pose proof Hok as Hlast.
  apply attempt_run in Hlast as (d & -> & Hshape). rewrite extend_extend.
  assert (d = [mkEvent order_click None; mkEvent receipt_wait None]) as ->
    by (by inversion Hshape).
  split; [by rewrite <- extend_extend|]. split; [by exists ds|].
  unfold process_order. unfold bind at 1. rewrite Hfill.
  unfold bind at 1. rewrite Hsubmit, extend_extend.
  apply fill_order_form_world in Hfill as (d_fill & -> & _).
  destruct (capture_and_return_run order config cfg env
              (extend (extend w_form d_fill)
                 (concat ds ++ [mkEvent order_click None; mkEvent receipt_wait None])) Hcfg)
    as (r & d & html & Hrun & Hplan).
  exists r, d, html. split; [done|]. split; [done|].
  by eapply captures_begun_capture.
Qed.

Lemma submit_order_succeeds_after_failures_witness :
  submit_order 4 click_fails_once_env form_filled = (Ok tt, submitted_on_retry) /\
  (exists ds,
     submitted_on_retry
     = extend form_filled
         (concat ds ++ [mkEvent order_click None; mkEvent receipt_wait None]) /\
     length ds = 1%nat /\
     Forall failed_attempt_events ds) /\
  (exists r d html,
     process_order 4 0 sample_order click_fails_once_env configured
     = (r, extend submitted_on_retry d) /\
     calls_run click_fails_once_env submitted_on_retry
       (capture_plan (cwd click_fails_once_env) Config_defaults sample_order html
        ++ return_plan) r d /\
     captures_begun d = 1%nat).
Proof.
  apply (submit_order_succeeds_after_failures 1 0 click_fails_once_env sample_order
           0 Config_defaults configured form_filled one_failed_click submitted_on_retry).
  - lia.
  - reflexivity.
  - reflexivity.
  - reflexivity.
  - reflexivity.
Defined.

(** ** Submit attempts that all raise *)

Lemma submit_events_no_output d ev :
  submit_events d -> ev ∈ d -> writes_output (action ev) = false.
Proof.
  unfold submit_events. rewrite Forall_forall. intros Hall Hev.
  specialize (Hall ev Hev). by destruct (action ev).
Qed.

Lemma fill_plan_no_output env w order r d ev :
  calls_run env w (fill_plan order) r d -> ev ∈ d -> writes_output (action ev) = false.
Proof.
  intros Hrun Hev. apply (calls_run_elem_of _ _ _ _ _ _ Hrun) in Hev.
  unfold fill_plan in Hev. rewrite !elem_of_cons in Hev.
  destruct Hev as [->|[->|[->|[->|H]]]]; try done. by apply elem_of_nil in H.
Qed.

(** C2.  For every order whose form was filled, every environment and
    world in which the first submit attempt raises [e0] and the three
    attempts after it raise too: [submit_order] raises an exception whose
    message names the 3 retries and [str(e0)], the failure of the first
    attempt; it made four clicks on the Order button and no call other than
    those of the attempts.  The processing of the order ends there with that
    exception: none of its events is a screenshot, a PDF rendering or an
    overlay, so no file is written for it, and the batch stops. *)
Theorem submit_order_exhausted
    (extra : nat) (env : Env) (order : Order) (rest : list Order) (config : ref)
    (w_form w w1 w4 : World) (e0 : Exn) :
  fill_order_form order env w_form = (Ok tt, w) ->
  attempt env w = (Raised e0, w1) ->
  failed_attempts 3 env w1 = Some w4 ->
  submit_order (4 + extra) env w = (Raised (Exception (exhausted_message e0)), w4) /\
  exhausted_message e0
  = "Failed to return to order form after 3 attempts: " +:+ str_exn e0 /\
  (exists d, w4 = extend w d /\ submit_events d /\ order_clicks d = 4%nat) /\
  process_order (4 + extra) config order env w_form
  = (Raised (Exception (exhausted_message e0)), w4) /\
  fill_and_submit_sales_form (4 + extra) (order :: rest) config env w_form
  = (Raised (Exception (exhausted_message e0)), w4) /\
  (exists d, w4 = extend w_form d /\
             forall ev, ev ∈ d -> writes_output (action ev) = false).
Proof.
  intros Hfill Hfirst Hrest.
  assert (Hsubmit : submit_order (4 + extra) env w
                    = (Raised (Exception (exhausted_message e0)), w4)).
  { rewrite submit_order_retry. unfold submit_with_retries, try_except.
    rewrite Hfirst. by apply failed_attempts_exhaust. }
  assert (Hevents : exists d, w4 = extend w d /\ submit_events d /\ order_clicks d = 4%nat).
  { apply attempt_run in Hfirst as (d1 & -> & Hshape1).
    apply failed_attempts_shape in Hrest as (ds & -> & Hlen & Hall).
    apply submit_events_failed_attempts in Hall as [Hsub Hclicks].
    exists (d1 ++ concat ds). rewrite extend_extend, order_clicks_app.
    rewrite (attempt_shape_clicks _ _ Hshape1), Hclicks, Hlen.
    repeat split. apply submit_events_app; [|done]. by eapply attempt_shape_submit. }
  split; [done|]. split; [done|]. split; [done|].
  assert (Hprocess : process_order (4 + extra) config order env w_form
                     = (Raised (Exception (exhausted_message e0)), w4)).
  { unfold process_order. unfold bind at 1. rewrite Hfill.
    unfold bind at 1. by rewrite Hsubmit. }
  split; [done|]. split.
  - unfold fill_and_submit_sales_form. cbn [for_each]. unfold bind. by rewrite Hprocess.
  - destruct Hevents as (d & -> & Hsub & _).
    apply fill_order_form_world in Hfill as (d_fill & -> & Hplan).
    exists (d_fill ++ d). rewrite extend_extend. split; [done|].
    intros ev [Hev|Hev]%elem_of_app.
    + by eapply fill_plan_no_output.
    + by eapply submit_events_no_output.
Qed.

Lemma submit_order_exhausted_witness :
  submit_order 4 no_receipt_env form_filled
  = (Raised (Exception (exhausted_message timeout_error)), waited_in_vain 4) /\
  exhausted_message timeout_error
  = "Failed to return to order form after 3 attempts: " +:+ str_exn timeout_error /\
  (exists d, waited_in_vain 4 = extend form_filled d /\ submit_events d /\
             order_clicks d = 4%nat) /\
  process_order 4 0 sample_order no_receipt_env configured
  = (Raised (Exception (exhausted_message timeout_error)), waited_in_vain 4) /\
  fill_and_submit_sales_form 4 (sample_order :: [headless_order]) 0 no_receipt_env configured
  = (Raised (Exception (exhausted_message timeout_error)), waited_in_vain 4) /\
  (exists d, waited_in_vain 4 = extend configured d /\
             forall ev, ev ∈ d -> writes_output (action ev) = false).
Proof.
  apply (submit_order_exhausted 0 no_receipt_env sample_order [headless_order] 0
           configured form_filled (waited_in_vain 1) (waited_in_vain 4) timeout_error).
  - reflexivity.
  - reflexivity.
  - reflexivity.
Defined.

(** ** Ingestion *)

Lemma getitem_cases {A} (cells : gmap string A) key env w :
  getitem cells key env w =
    match cells !! key with
    | Some v => (Ok v, w)
    | None => (Raised (KeyError key), w)
    end.
Proof. unfold getitem. by destruct (cells !! key). Qed.

Lemma Order_of_row_cases row env w :
  (exists order,
     row_order row = Some order /\ missing_column row = None /\
     Order_of_row row env w = (Ok order, w)) \/
  (exists key,
     row_order row = None /\ missing_column row = Some key /\
     Order_of_row row env w = (Raised (KeyError key), w)).
Proof.
  unfold Order_of_row, row_order, missing_column, bind, ret.
  rewrite getitem_cases.
  destruct (int_cells row !! "Order number"); [|right; eauto].
  rewrite getitem_cases.
  destruct (str_cells row !! "Head"); [|right; eauto].
  rewrite getitem_cases.
  destruct (str_cells row !! "Body"); [|right; eauto].
  rewrite getitem_cases.
  destruct (str_cells row !! "Legs"); [|right; eauto].
  rewrite getitem_cases.
  destruct (str_cells row !! "Address"); [|right; eauto].
  left. eauto.
Qed.

Lemma comprehension_cases rows env w :
  (exists orders,
     Forall2 (fun row order => row_order row = Some order) rows orders /\
     comprehension Order_of_row rows env w = (Ok orders, w)) \/
  (exists before row after key,
     rows = before ++ row :: after /\
     Forall (fun row => missing_column row = None) before /\
     missing_column row = Some key /\
     comprehension Order_of_row rows env w = (Raised (KeyError key), w)).
Proof.
  induction rows as [|row rows IH].
  - left. exists []. split; [constructor|done].
  - destruct (Order_of_row_cases row env w)
      as [(order & Horder & Hnone & Hrow) | (key & _ & Hkey & Hrow)].
    + destruct IH as [(orders & Hall & Hrest)
                     | (before & row' & after & key & -> & Hb & Hkey & Hrest)].
      * left. exists (order :: orders). split; [by constructor|].
        cbn [comprehension]. unfold bind. by rewrite Hrow, Hrest.
      * right. exists (row :: before), row', after, key.
        split; [done|]. split; [by constructor|]. split; [done|].
        cbn [comprehension]. unfold bind. by rewrite Hrow, Hrest.
    + right. exists [], row, rows, key.
      split; [done|]. split; [constructor|]. split; [done|].
      cbn [comprehension]. unfold bind. by rewrite Hrow.
Qed.

Lemma missing_column_lacks row key :
  missing_column row = Some key -> key ∈ expected_columns /\ lacks row key.
Proof.
  unfold missing_column, lacks, expected_columns.
  destruct (int_cells row !! "Order number") eqn:H1;
    [|intros [= <-]; split; [set_solver|by rewrite decide_True]].
  destruct (str_cells row !! "Head") eqn:H2;
    [|intros [= <-]; split; [set_solver|by rewrite decide_False]].
  destruct (str_cells row !! "Body") eqn:H3;
    [|intros [= <-]; split; [set_solver|by rewrite decide_False]].
  destruct (str_cells row !! "Legs") eqn:H4;
    [|intros [= <-]; split; [set_solver|by rewrite decide_False]].
  destruct (str_cells row !! "Address") eqn:H5;
    [|intros [= <-]; split; [set_solver|by rewrite decide_False]].
  done.
Qed.

Lemma lacks_row_order row key :
  key ∈ expected_columns -> lacks row key -> row_order row = None.
Proof.
  unfold expected_columns, lacks, row_order. rewrite !elem_of_cons.
  intros [->|[->|[->|[->|[->|H]]]]]; [..|by apply elem_of_nil in H];
    cbn; intros ->; by repeat case_match.
Qed.

(** ** The whole task *)

Lemma read_table_from_csv_cases file env w :
  (fails env (trace w) (ReadTableFromCsv file) = None /\
   read_table_from_csv file env w
   = (Ok (csv_rows env (trace w) file), extend w [mkEvent (ReadTableFromCsv file) None])) \/
  (exists e, fails env (trace w) (ReadTableFromCsv file) = Some e /\
             read_table_from_csv file env w
             = (Raised e, extend w [mkEvent (ReadTableFromCsv file) (Some e)])).
Proof.
  unfold read_table_from_csv. rewrite !record_extend.
  destruct (fails env (trace w) (ReadTableFromCsv file)) as [e|]; [right; eauto | left; auto].
Qed.

Lemma allocated_lookup w : heap (allocated w) !! length (heap w) = Some Config_defaults.
Proof. unfold allocated; cbn. by rewrite list_lookup_middle. Qed.

Lemma archive_receipts_run config env w :
  heap w !! config = Some Config_defaults ->
  exists r d,
    archive_receipts config env w = (r, extend w d) /\
    calls_run env w [archive_call (cwd env)] r d.
Proof.
  intros Hcfg. unfold archive_receipts.
  unfold bind at 1. rewrite (getattr_ok _ _ _ _ _ Hcfg).
  unfold bind at 1, absolute.
  unfold bind at 1. rewrite (getattr_ok _ _ _ _ _ Hcfg).
  unfold bind at 1.
  change (call (ArchiveFolderWithZip _ _)) with (call (archive_call (cwd env))).
  next_call; close_run.
Qed.

Lemma opening_run config env w :
  heap w !! config = Some Config_defaults ->
  forall (rest : M unit),
  exists r d,
    calls_run env w opening_plan r d /\
    (open_robot_order_website config ;; close_annoying_modal ;; rest) env w
    = match r with
      | Ok _ => rest env (extend w d)
      | other => (other, extend w d)
      end.
Proof.
  intros Hcfg rest. unfold open_robot_order_website, close_annoying_modal, opening_plan.
  unfold bind at 1 2. rewrite (getattr_ok _ _ _ _ _ Hcfg).
  change (robot_order_website_url Config_defaults)
    with "https://robotsparebinindustries.com/#robot-order".
  next_call.
  - unfold bind at 1. next_call; rewrite extend_extend.
    + eexists (Ok tt), _. split; [|reflexivity]. repeat (econstructor; try eassumption).
    + eexists (Raised e), _. split; [|reflexivity]. repeat (econstructor; try eassumption).
  - eexists (Raised e), _. split; [|reflexivity]. by constructor.
Qed.

Lemma order_robots_run extra env w :
  exists r d,
    order_robots_from_RobotSpareBin (4 + extra) env w = (r, extend (allocated w) d) /\
    task_run env (allocated w) r d.
Proof.
  unfold order_robots_from_RobotSpareBin.
  unfold bind at 1, Config_new. fold (allocated w).
  pose proof (allocated_lookup w) as Hcfg.
  set (config := length (heap w)) in *. set (w1 := allocated w) in *.
  unfold bind at 1. rewrite (getattr_ok _ _ _ _ _ Hcfg).
  unfold bind at 1. rewrite (getattr_ok _ _ _ _ _ Hcfg).
  unfold bind at 1, download_file.
  change (Download _ _ true) with download_call.
  destruct (call_cases download_call env w1) as [[Hd ->] | [e [Hd ->]]];
    [|exists (Raised e), [mkEvent download_call (Some e)]; split; [done|by constructor]].
  unfold bind at 1, get_orders.
  unfold bind at 1. rewrite (getattr_ok _ _ Config_defaults) by done.
  change (orders_file_name Config_defaults) with "orders.csv".
  unfold bind at 1.
  destruct (read_table_from_csv_cases "orders.csv" env (extend w1 [mkEvent download_call None]))
    as [[Hr ->] | [e [Hr ->]]]; rewrite extend_extend; cbn [app];
    [|exists (Raised e), [mkEvent download_call None; mkEvent read_call (Some e)];
      split; [done|by constructor]].
  fold read_call.
  destruct (comprehension_cases
              (csv_rows env (trace (extend w1 [mkEvent download_call None])) "orders.csv")
              env (extend w1 [mkEvent download_call None; mkEvent read_call None]))
    as [(orders & Hall & ->) | (before & row & after & key & Hrows & Hb & Hkey & ->)];
    [|exists (Raised (KeyError key)), [mkEvent download_call None; mkEvent read_call None];
      split; [done|by eapply task_column_missing]].
  destruct (opening_run config env
              (extend w1 [mkEvent download_call None; mkEvent read_call None]) Hcfg
              (fill_and_submit_sales_form (4 + extra) orders config ;;
               archive_receipts config))
    as (r1 & d1 & Hopen & ->).
  destruct (calls_run_result _ _ _ _ _ Hopen) as [-> | [e ->]]; rewrite extend_extend;
    [|exists (Raised e), ([mkEvent download_call None; mkEvent read_call None] ++ d1);
      split; [done|by eapply task_opening_raised]].
  apply calls_run_ok in Hopen as ->.
  unfold bind at 1.
  destruct (fill_and_submit_sales_form_run extra config Config_defaults env orders
              (extend w1 ([mkEvent download_call None; mkEvent read_call None]
                          ++ map (fun a => mkEvent a None) opening_plan)) Hcfg)
    as (r2 & d2 & -> & Hbatch).
  rewrite extend_extend, <- app_assoc.
  assert (r2 = Ok tt \/ exists e, r2 = Raised e) as [-> | [e ->]].
  { clear -Hbatch. induction Hbatch; eauto. }
  - destruct (archive_receipts_run config env
                (extend w1 ([mkEvent download_call None; mkEvent read_call None]
                            ++ map (fun a => mkEvent a None) opening_plan ++ d2)) Hcfg)
      as (r3 & d3 & -> & Hzip).
    rewrite extend_extend, <- !app_assoc.
    eexists r3, _. split; [reflexivity|]. by eapply task_archived.
  - eexists (Raised e), _. split; [reflexivity|]. by eapply task_batch_raised.
Qed.

(** ** The store of Config objects is only read *)

Create HintDb frame.

Lemma keeps_heap_ret {A} (a : A) : keeps_heap (ret a).
Proof. by intros env w. Qed.

Lemma keeps_heap_raise {A} e : keeps_heap (@raise A e).
Proof. by intros env w. Qed.

Lemma keeps_heap_bind {A B} (m : M A) (k : A -> M B) :
  keeps_heap m -> (forall a, keeps_heap (k a)) -> keeps_heap (bind m k).
Proof.
  intros Hm Hk env w. unfold bind. specialize (Hm env w).
  destruct (m env w) as [[a| | | ] w1]; cbn in *; [|done..].
  by rewrite Hk.
Qed.

Lemma keeps_heap_try_except {A} (m : M A) (handler : Exn -> M A) :
  keeps_heap m -> (forall e, keeps_heap (handler e)) -> keeps_heap (try_except m handler).
Proof.
  intros Hm Hh env w. unfold try_except. specialize (Hm env w).
  destruct (m env w) as [[a|e| | ] w1]; cbn in *; [done| |done..].
  by rewrite Hh.
Qed.

Lemma keeps_heap_call a : keeps_heap (call a).
Proof. intros env w. unfold call. by destruct (fails env (trace w) a). Qed.

Lemma keeps_heap_inner_html selector : keeps_heap (inner_html selector).
Proof. intros env w. unfold inner_html. by destruct (fails env (trace w) _). Qed.

Lemma keeps_heap_read_table_from_csv file : keeps_heap (read_table_from_csv file).
Proof. intros env w. unfold read_table_from_csv. by destruct (fails env (trace w) _). Qed.

Lemma keeps_heap_absolute p : keeps_heap (absolute p).
Proof. by intros env w. Qed.

Lemma keeps_heap_getattr {A} config (field : Config -> A) : keeps_heap (getattr config field).
Proof. intros env w. unfold getattr. by destruct (heap w !! config). Qed.

Lemma keeps_heap_getitem {A} (cells : gmap string A) key : keeps_heap (getitem cells key).
Proof. intros env w. unfold getitem. by destruct (cells !! key). Qed.

Lemma keeps_heap_if {A} (b : bool) (m1 m2 : M A) :
  keeps_heap m1 -> keeps_heap m2 -> keeps_heap (if b then m1 else m2).
Proof. by destruct b. Qed.

Lemma keeps_heap_for_each {A} (xs : list A) (body : A -> M unit) :
  (forall x, keeps_heap (body x)) -> keeps_heap (for_each xs body).
Proof.
  intros Hbody. induction xs as [|x xs IH]; cbn [for_each].
  - apply keeps_heap_ret.
  - apply keeps_heap_bind; auto.
Qed.

Lemma keeps_heap_comprehension {A B} (f : A -> M B) (xs : list A) :
  (forall x, keeps_heap (f x)) -> keeps_heap (comprehension f xs).
Proof.
  intros Hf. induction xs as [|x xs IH]; cbn [comprehension].
  - apply keeps_heap_ret.
  - repeat (apply keeps_heap_bind; auto; intros); apply keeps_heap_ret.
Qed.

Lemma keeps_heap_while {St} fuel (cond : St -> bool) (body : St -> M St) :
  (forall s, keeps_heap (body s)) -> forall s, keeps_heap (while fuel cond body s).
Proof.
  intros Hbody. induction fuel as [|fuel IH]; intros s; cbn [while].
  - by intros env w.
  - destruct (cond s); [|apply keeps_heap_ret]. apply keeps_heap_bind; auto.
Qed.

#[local] Hint Resolve keeps_heap_ret keeps_heap_raise keeps_heap_call keeps_heap_inner_html
  keeps_heap_read_table_from_csv keeps_heap_absolute keeps_heap_getattr
  keeps_heap_getitem : frame.
#[local] Hint Extern 2 (keeps_heap (bind _ _)) =>
  apply keeps_heap_bind; [|intros] : frame.
#[local] Hint Extern 2 (keeps_heap (try_except _ _)) =>
  apply keeps_heap_try_except; [|intros] : frame.
#[local] Hint Extern 2 (keeps_heap (if _ then _ else _)) =>
  apply keeps_heap_if : frame.
#[local] Hint Extern 2 (keeps_heap (for_each _ _)) =>
  apply keeps_heap_for_each; intros : frame.
#[local] Hint Extern 2 (keeps_heap (comprehension _ _)) =>
  apply keeps_heap_comprehension; intros : frame.
#[local] Hint Extern 2 (keeps_heap (while _ _ _ _)) =>
  apply keeps_heap_while; intros : frame.

Ltac frame := auto 20 with frame.

Lemma keeps_heap_download_file url file : keeps_heap (download_file url file).
Proof. unfold download_file. frame. Qed.

Lemma keeps_heap_get_orders config : keeps_heap (get_orders config).
Proof. unfold get_orders, Order_of_row. frame. Qed.

Lemma keeps_heap_open_robot_order_website config :
  keeps_heap (open_robot_order_website config).
Proof. unfold open_robot_order_website. frame. Qed.

Lemma keeps_heap_close_annoying_modal : keeps_heap close_annoying_modal.
Proof. unfold close_annoying_modal. frame. Qed.

Lemma keeps_heap_go_back_to_order_form : keeps_heap go_back_to_order_form.
Proof. unfold go_back_to_order_form. frame. Qed.

Lemma keeps_heap_fill_order_form order : keeps_heap (fill_order_form order).
Proof. unfold fill_order_form. frame. Qed.

Lemma keeps_heap_submit_order fuel : keeps_heap (submit_order fuel).
Proof. unfold submit_order, retry_body, click_order, wait_for_receipt. frame. Qed.

Lemma keeps_heap_store_receipt_as_pdf order config :
  keeps_heap (store_receipt_as_pdf order config).
Proof.
  unfold store_receipt_as_pdf, screenshot_robot, await_robot_preview,
    embed_screenshot_to_receipt. frame.
Qed.

Lemma keeps_heap_archive_receipts config : keeps_heap (archive_receipts config).
Proof. unfold archive_receipts. frame. Qed.

#[local] Hint Resolve keeps_heap_download_file keeps_heap_get_orders
  keeps_heap_open_robot_order_website keeps_heap_close_annoying_modal
  keeps_heap_go_back_to_order_form keeps_heap_fill_order_form keeps_heap_submit_order
  keeps_heap_store_receipt_as_pdf keeps_heap_archive_receipts : frame.

Lemma keeps_heap_fill_and_submit_sales_form fuel orders config :
  keeps_heap (fill_and_submit_sales_form fuel orders config).
Proof. unfold fill_and_submit_sales_form, process_order. frame. Qed.

(** C9.  No operation of the workflow changes a [Config] object: the
    download, the ingestion, the opening of the shop, the closing of the
    modal, the filling of the form, the submit, the capture, the way back to
    the form, the whole batch and the archiving each leave the store of
    [Config] objects exactly as they found it, for every environment, world
    and loop budget.  The task adds the one object [Config()] makes and, when
    the task ends (returning or raising), that object still holds the
    initial value of every field. *)
Theorem config_is_read_only (fuel : nat) (env : Env) (w : World) :
  (forall url file, heap (snd (download_file url file env w)) = heap w) /\
  (forall config, heap (snd (get_orders config env w)) = heap w) /\
  (forall config, heap (snd (open_robot_order_website config env w)) = heap w) /\
  heap (snd (close_annoying_modal env w)) = heap w /\
  (forall order, heap (snd (fill_order_form order env w)) = heap w) /\
  heap (snd (submit_order fuel env w)) = heap w /\
  (forall order config, heap (snd (store_receipt_as_pdf order config env w)) = heap w) /\
  heap (snd (go_back_to_order_form env w)) = heap w /\
  (forall orders config,
     heap (snd (fill_and_submit_sales_form fuel orders config env w)) = heap w) /\
  (forall config, heap (snd (archive_receipts config env w)) = heap w) /\
  heap (snd (order_robots_from_RobotSpareBin fuel env w)) = heap w ++ [Config_defaults] /\
  heap (snd (order_robots_from_RobotSpareBin fuel env w)) !! length (heap w)
  = Some Config_defaults.
Proof.
  assert (Htask : heap (snd (order_robots_from_RobotSpareBin fuel env w))
                  = heap w ++ [Config_defaults]).
  { unfold order_robots_from_RobotSpareBin. unfold bind at 1, Config_new.
    match goal with
    | |- heap (snd (?rest ?c env ?w1)) = _ =>
        assert (Hrest : keeps_heap (rest c))
          by (pose proof (keeps_heap_fill_and_submit_sales_form fuel); frame);
        exact (Hrest env w1)
    end. }
  repeat split; intros;
    try (by apply keeps_heap_download_file);
    try (by apply keeps_heap_get_orders);
    try (by apply keeps_heap_open_robot_order_website);
    try (by apply keeps_heap_close_annoying_modal);
    try (by apply keeps_heap_fill_order_form);
    try (by apply keeps_heap_submit_order);
    try (by apply keeps_heap_store_receipt_as_pdf);
    try (by apply keeps_heap_go_back_to_order_form);
    try (by apply keeps_heap_fill_and_submit_sales_form);
    try (by apply keeps_heap_archive_receipts);
    try done.
  rewrite Htask. by rewrite list_lookup_middle.
Qed.

(** ** Calls outside of the submit attempts are not retried *)

Lemma quiet_app d1 d2 : quiet d1 -> quiet d2 -> quiet (d1 ++ d2).
Proof. unfold quiet. rewrite Forall_app. auto. Qed.

Lemma quiet_returned (plan : list Action) : quiet (map (fun a => mkEvent a None) plan).
Proof. unfold quiet. rewrite Forall_fmap. apply Forall_true. intros a. by left. Qed.

Lemma quiet_submit_events d : submit_events d -> quiet d.
Proof.
  unfold quiet, submit_events. intros H. eapply Forall_impl; [exact H|]. auto.
Qed.

Lemma orderly_app d1 r d2 : quiet d1 -> orderly r d2 -> orderly r (d1 ++ d2).
Proof.
  intros H1 [H2 | (d0 & a & e & -> & -> & H0)].
  - left. by apply quiet_app.
  - right. exists (d1 ++ d0), a, e. rewrite app_assoc. auto using quiet_app.
Qed.

Lemma calls_run_orderly env w plan r d : calls_run env w plan r d -> orderly r d.
Proof.
  intros Hrun. destruct (calls_run_result _ _ _ _ _ Hrun) as [-> | [e ->]].
  - apply calls_run_ok in Hrun as ->. left. apply quiet_returned.
  - apply calls_run_raised in Hrun as (before & a & after & _ & ->).
    right. exists (map (fun a => mkEvent a None) before), a, e.
    auto using quiet_returned.
Qed.

Lemma calls_run_quiet env w plan d : calls_run env w plan (Ok tt) d -> quiet d.
Proof. intros ->%calls_run_ok. apply quiet_returned. Qed.

Lemma order_run_orderly env w cfg order r d :
  order_run env w cfg order r d -> orderly r d /\ (r = Ok tt -> quiet d).
Proof.
  destruct 1 as [e d Hfill | d1 d2 e Hfill Hsubmit Hevents
                | d1 d2 html r d3 Hfill Hsubmit Hevents Hrest].
  - split; [by eapply calls_run_orderly|done].
  - split; [|done]. left.
    apply quiet_app; [by eapply calls_run_quiet|by apply quiet_submit_events].
  - assert (Hq : quiet (d1 ++ d2))
      by (apply quiet_app; [by eapply calls_run_quiet|by apply quiet_submit_events]).
    rewrite app_assoc. split.
    + apply orderly_app; [done|]. by eapply calls_run_orderly.
    + intros ->. apply quiet_app; [done|]. by eapply calls_run_quiet.
Qed.

Lemma batch_run_orderly env cfg w orders r d :
  batch_run env cfg w orders r d -> orderly r d /\ (r = Ok tt -> quiet d).
Proof.
  induction 1 as [w | w order rest e d Horder | w order rest d1 r d2 Horder Hrest [IH1 IH2]].
  - split; [left|intros _]; constructor.
  - split; [|done]. by eapply order_run_orderly.
  - apply order_run_orderly in Horder as [_ Hq]. specialize (Hq eq_refl).
    split; [by apply orderly_app|]. intros Hr. apply quiet_app; auto.
Qed.

Lemma task_run_orderly env w1 r d : task_run env w1 r d -> orderly r d.
Proof.
  destruct 1 as [e Hd | e Hd Hr | before row after key Hd Hr Hrows Hb Hkey
                | orders e d Hd Hr Hall Hopen | orders e d Hd Hr Hall Hbatch
                | orders d r d_zip Hd Hr Hall Hbatch Hzip].
  - right. exists [], download_call, e. repeat split. constructor.
  - right. exists [mkEvent download_call None], read_call, e.
    repeat split. apply (quiet_returned [download_call]).
  - left. apply (quiet_returned [download_call; read_call]).
  - apply orderly_app; [apply (quiet_returned [download_call; read_call])|].
    by eapply calls_run_orderly.
  - apply orderly_app; [apply (quiet_returned [download_call; read_call])|].
    apply orderly_app; [apply quiet_returned|]. by eapply batch_run_orderly.
  - apply orderly_app; [apply (quiet_returned [download_call; read_call])|].
    apply orderly_app; [apply quiet_returned|].
    apply orderly_app; [by eapply batch_run_orderly|]. by eapply calls_run_orderly.
Qed.

Lemma orderly_fatal r d before ev after e :
  orderly r d ->
  d = before ++ ev :: after ->
  raised ev = Some e ->
  is_submit_action (action ev) = false ->
  after = [] /\ r = Raised e.
Proof.
  intros Hord -> Hraised Hnot.
  assert (Hloud : forall l1 l2, ~ quiet (l1 ++ ev :: l2)).
  { intros l1 l2. unfold quiet. rewrite Forall_app, Forall_cons.
    intros (_ & [H|H] & _); congruence. }
  destruct Hord as [Hq | (d0 & a & e' & -> & Heq & Hq)]; [by apply Hloud in Hq|].
  destruct after as [|x after _] using rev_ind.
  - apply app_inj_tail in Heq as [-> ->]. cbn in Hraised. by injection Hraised as ->.
  - exfalso. rewrite app_comm_cons, app_assoc in Heq.
    apply app_inj_tail in Heq as [<- _]. by apply Hloud in Hq.
Qed.

(** C7.  For every run of the task: an event of a call that raised and that
    is not one of the submit attempts (the click on the Order button or the
    wait for [#receipt]) is the last event of the run, and the run ends with
    the error of that call.  So the call is not made again, nothing is made
    after it, and the rest of the batch is not processed.  The closing of
    the modal, the click on "Order another robot" and the waits of the
    preview are such calls. *)
Theorem failure_outside_submit_is_fatal
    (extra : nat) (env : Env) (w w' : World) (r : Result unit)
    (before after : list Event) (ev : Event) (e : Exn) :
  order_robots_from_RobotSpareBin (4 + extra) env w = (r, w') ->
  trace w' = trace w ++ before ++ ev :: after ->
  raised ev = Some e ->
  is_submit_action (action ev) = false ->
  (after = [] /\ r = Raised e) /\
  is_submit_action (Click "button:text('OK')" None) = false /\
  is_submit_action (Click "button:text('Order another robot')" (Some 1000)) = false /\
  (forall head body legs a,
     a ∈ preview_waits head body legs default_timeout -> is_submit_action a = false).
Proof.
  intros Hrun Htrace Hraised Hnot. split; [|split; [done|split; [done|]]].
  - destruct (order_robots_run extra env w) as (r0 & d & Hrun0 & Htask).
    rewrite Hrun0 in Hrun. injection Hrun as <- <-.
    cbn in Htask, Htrace. apply app_inv_head in Htrace as ->.
    apply task_run_orderly in Htask. by eapply orderly_fatal.
  - intros head body legs a Ha.
    by apply preview_waits_are_waits in Ha as [selector ->].
Qed.

Lemma failure_outside_submit_is_fatal_witness :
  let run := order_robots_from_RobotSpareBin 4 stuck_back_button_env fresh in
  fst run = Raised timeout_error /\
  last (trace (snd run))
  = Some (mkEvent (Click "button:text('Order another robot')" (Some 1000))
            (Some timeout_error)) /\
  length (trace (snd run)) = 19%nat.
Proof.
  intros run.
  destruct (failure_outside_submit_is_fatal 0 stuck_back_button_env fresh
              (snd run) (fst run) (take 18 (trace (snd run))) []
              (mkEvent (Click "button:text('Order another robot')" (Some 1000))
                 (Some timeout_error))
              timeout_error) as [[_ Hr] _].
  - vm_compute. reflexivity.
  - vm_compute. reflexivity.
  - reflexivity.
  - reflexivity.
  - split; [exact Hr|]. split; vm_compute; reflexivity.
Defined.

Lemma screenshot_robot_preview_wait_witness :
  exists d e selector,
    screenshot_robot head_3_order 0 no_head_3_env configured
    = (Raised e, extend configured d) /\
    last d = Some (mkEvent (WaitForSelector selector "visible" 5000) (Some e)) /\
    forall ev path, ev ∈ d -> action ev <> Screenshot path.
Proof.
  destruct (screenshot_robot_preview_wait head_3_order 0 Config_defaults
              no_head_3_env configured) as (r & d & Hrun & _ & Hnever).
  - reflexivity.
  - destruct (Hnever head_wait "3") as (e & selector & -> & Hlast & Hnone).
    + apply elem_of_cons. left. reflexivity.
    + discriminate.
    + intros tr. vm_compute. discriminate.
    + exists d, e, selector. auto.
Defined.

(** The example of the specification: the head ["3"] never shows; the wait
    for it raises after the container was found, and no screenshot call is
    made. *)
Example preview_wait_head_3_times_out :
  never_returns no_head_3_env (head_wait "3" 5000) /\
  screenshot_robot head_3_order 0 no_head_3_env configured
  = (Raised timeout_error,
     extend configured
       [mkEvent (WaitForSelector "#robot-preview-image" "visible" 5000) None;
        mkEvent (WaitForSelector "#robot-preview-image img[src='/heads/3.png']"
                   "visible" 5000) (Some timeout_error)]).
Proof. split; [intros tr; discriminate|reflexivity]. Qed.

(** ** One receipt and one screenshot per order *)

Lemma omap_none {A B} (f : A -> option B) (l : list A) :
  (forall x, x ∈ l -> f x = None) -> omap f l = [].
Proof.
  induction l as [|x l IH]; intros H; [done|]. cbn.
  rewrite (H x) by (apply elem_of_cons; auto).
  apply IH. intros y Hy. apply H. apply elem_of_cons; auto.
Qed.

Lemma no_files_in_submit d :
  submit_events d ->
  receipts_rendered d = [] /\ screenshots_taken d = [] /\ overlays_made d = [].
Proof.
  intros Hsub. unfold submit_events in Hsub. rewrite Forall_forall in Hsub.
  repeat split; apply omap_none; intros ev Hev; specialize (Hsub ev Hev);
    destruct (action ev); try done; by destruct (raised ev).
Qed.

Lemma no_files_in_fill env w order r d :
  calls_run env w (fill_plan order) r d ->
  receipts_rendered d = [] /\ screenshots_taken d = [] /\ overlays_made d = [].
Proof.
  intros Hrun.
  repeat split; apply omap_none; intros ev Hev;
    apply (calls_run_elem_of _ _ _ _ _ _ Hrun) in Hev;
    unfold fill_plan in Hev; rewrite !elem_of_cons in Hev;
    destruct Hev as [->|[->|[->|[->|H]]]]; try (by destruct (raised ev));
    by apply elem_of_nil in H.
Qed.

Lemma files_of_capture cwd cfg order html :
  let d := map (fun a => mkEvent a None) (capture_plan cwd cfg order html ++ return_plan) in
  receipts_rendered d = [receipt_file cwd cfg order] /\
  screenshots_taken d = [screenshot_file cwd cfg order] /\
  overlays_made d = [(screenshot_file cwd cfg order, receipt_file cwd cfg order,
                      receipt_file cwd cfg order)].
Proof.
  unfold capture_plan, preview_waits, part_wait, return_plan,
    receipts_rendered, screenshots_taken, overlays_made.
  destruct (String.eqb (head order) ""), (String.eqb (body order) ""),
    (String.eqb (legs order) ""); repeat split; reflexivity.
Qed.

Lemma order_run_files env w cfg order d :
  order_run env w cfg order (Ok tt) d ->
  receipts_rendered d = [receipt_file (cwd env) cfg order] /\
  screenshots_taken d = [screenshot_file (cwd env) cfg order] /\
  overlays_made d = [(screenshot_file (cwd env) cfg order, receipt_file (cwd env) cfg order,
                      receipt_file (cwd env) cfg order)].
Proof.
  intros Hrun. remember (Ok tt) as r eqn:Hr.
  destruct Hrun as [e d Hfill | d1 d2 e Hfill Hsubmit Hevents
                   | d1 d2 html r d3 Hfill Hsubmit Hevents Hrest]; [done|done|].
  subst r. apply calls_run_ok in Hrest as ->.
  destruct (no_files_in_fill _ _ _ _ _ Hfill) as (F1 & F2 & F3).
  destruct (no_files_in_submit _ Hevents) as (S1 & S2 & S3).
  destruct (files_of_capture (cwd env) cfg order html) as (C1 & C2 & C3).
  unfold receipts_rendered, screenshots_taken, overlays_made in *.
  rewrite !omap_app, F1, F2, F3, S1, S2, S3, C1, C2, C3. done.
Qed.

Lemma batch_run_files env cfg w orders d :
  batch_run env cfg w orders (Ok tt) d ->
  receipts_rendered d = map (receipt_file (cwd env) cfg) orders /\
  screenshots_taken d = map (screenshot_file (cwd env) cfg) orders /\
  overlays_made d
  = map (fun order => (screenshot_file (cwd env) cfg order, receipt_file (cwd env) cfg order,
                       receipt_file (cwd env) cfg order)) orders.
Proof.
  intros Hrun. remember (Ok tt) as r eqn:Hr.
  induction Hrun as [w | w order rest e d Horder
                    | w order rest d1 r d2 Horder Hrest IH]; [done|done|].
  destruct (IH Hr) as (R1 & R2 & R3).
  destruct (order_run_files _ _ _ _ _ Horder) as (O1 & O2 & O3).
  unfold receipts_rendered, screenshots_taken, overlays_made in *.
  rewrite !omap_app, R1, R2, R3, O1, O2, O3. done.
Qed.

Lemma string_app_length s t :
  String.length (s +:+ t) = (String.length s + String.length t)%nat.
Proof. induction s as [|c s IH]; [done|]. simpl. by rewrite IH. Qed.

Lemma string_app_inj_r s1 s2 t : s1 +:+ t = s2 +:+ t -> s1 = s2.
Proof.
  revert s2. induction s1 as [|c1 s1 IH]; intros [|c2 s2] H; [done| | |].
  - apply (f_equal String.length) in H. rewrite !string_app_length in H. simpl in H. lia.
  - apply (f_equal String.length) in H. rewrite !string_app_length in H. simpl in H. lia.
  - simpl in H. injection H as -> H. f_equal. auto.
Qed.

Lemma file_name_inj (pre post : string) n1 n2 :
  pre +:+ str_int n1 +:+ post = pre +:+ str_int n2 +:+ post -> n1 = n2.
Proof.
  intros H. apply String.app_inj in H. apply string_app_inj_r in H.
  unfold str_int in H. by apply (inj pretty) in H.
Qed.

Lemma receipt_file_inj cwd cfg o1 o2 :
  receipt_file cwd cfg o1 = receipt_file cwd cfg o2 -> order_number o1 = order_number o2.
Proof.
  unfold receipt_file. intros H. apply app_inv_head in H.
  injection H as H. by apply file_name_inj in H.
Qed.

Lemma screenshot_file_inj cwd cfg o1 o2 :
  screenshot_file cwd cfg o1 = screenshot_file cwd cfg o2 ->
  order_number o1 = order_number o2.
Proof.
  unfold screenshot_file. intros H. apply app_inv_head in H.
  injection H as H. by apply file_name_inj in H.
Qed.

Lemma NoDup_files (file : Order -> Path) (orders : list Order) :
  (forall o1 o2, file o1 = file o2 -> order_number o1 = order_number o2) ->
  NoDup (map order_number orders) -> NoDup (map file orders).
Proof.
  intros Hinj. induction orders as [|o orders IH]; cbn; [constructor|].
  rewrite !NoDup_cons. intros [Hnotin Hnodup]. split; [|auto].
  intros Hin. apply Hnotin.
  apply list_elem_of_fmap in Hin as (o' & Heq & Hin).
  apply list_elem_of_fmap. exists o'. split; [by apply Hinj|done].
Qed.

(** C5.  For every run of the task that returns: the table read from the
    downloaded CSV file has as many rows as there are orders, row by row
    the order of the row; the PDF files rendered are, in the order of the
    rows, the files [receipts/receipt-<order_number>.pdf] below the output
    directory [output] of the working directory, one per row; the
    screenshots taken are the files [screenshots/robot-<order_number>.png]
    there, one per row; every screenshot is laid over the receipt of its
    order.  So N rows give N renderings and N screenshots, and when the
    order numbers differ from each other, N different receipt files and N
    different screenshot files. *)
Theorem one_receipt_and_screenshot_per_row (extra : nat) (env : Env) (w w' : World) :
  order_robots_from_RobotSpareBin (4 + extra) env w = (Ok tt, w') ->
  let rows := csv_rows env (trace w ++ [mkEvent download_call None]) "orders.csv" in
  let receipt order :=
    cwd env ++ ["output"; "receipts";
                "receipt-" +:+ str_int (order_number order) +:+ ".pdf"] in
  let screenshot order :=
    cwd env ++ ["output"; "screenshots";
                "robot-" +:+ str_int (order_number order) +:+ ".png"] in
  exists orders d,
    w' = extend (allocated w) d /\
    Forall2 (fun row order => row_order row = Some order) rows orders /\
    receipts_rendered d = map receipt orders /\
    screenshots_taken d = map screenshot orders /\
    overlays_made d = map (fun order => (screenshot order, receipt order, receipt order)) orders /\
    length (receipts_rendered d) = length rows /\
    length (screenshots_taken d) = length rows /\
    (NoDup (map order_number orders) ->
     NoDup (receipts_rendered d) /\ NoDup (screenshots_taken d)).
Proof.
  intros Hrun rows receipt screenshot.
  destruct (order_robots_run extra env w) as (r & d & Hrun' & Htask).
  rewrite Hrun' in Hrun. injection Hrun as -> <-.
  remember (Ok tt) as r eqn:Hr.
  destruct Htask as [e Hd | e Hd Hr' | before row after key Hd Hr' Hrows Hb Hkey
                    | orders e d Hd Hr' Hall Hopen | orders e d Hd Hr' Hall Hbatch
                    | orders d r d_zip Hd Hr' Hall Hbatch Hzip]; try done.
  subst r. apply calls_run_ok in Hzip as ->.
  destruct (batch_run_files _ _ _ _ _ Hbatch) as (R & S & O).
  assert (Hreceipt : forall o, receipt_file (cwd env) Config_defaults o = receipt o).
  { intros o. unfold receipt_file, receipt.
    change (absolute_from (cwd env) (output_dir Config_defaults))
      with (cwd env ++ ["output"]).
    by rewrite <- app_assoc. }
  assert (Hshot : forall o, screenshot_file (cwd env) Config_defaults o = screenshot o).
  { intros o. unfold screenshot_file, screenshot.
    change (absolute_from (cwd env) (output_dir Config_defaults))
      with (cwd env ++ ["output"]).
    by rewrite <- app_assoc. }
  assert (HR : receipts_rendered
                 ([mkEvent download_call None; mkEvent read_call None]
                  ++ map (fun a => mkEvent a None) opening_plan ++ d
                  ++ map (fun a => mkEvent a None) [archive_call (cwd env)])
               = map receipt orders).
  { unfold receipts_rendered in *. rewrite !omap_app, R. cbn.
    rewrite app_nil_r. by apply map_ext. }
  assert (HS : screenshots_taken
                 ([mkEvent download_call None; mkEvent read_call None]
                  ++ map (fun a => mkEvent a None) opening_plan ++ d
                  ++ map (fun a => mkEvent a None) [archive_call (cwd env)])
               = map screenshot orders).
  { unfold screenshots_taken in *. rewrite !omap_app, S. cbn.
    rewrite app_nil_r. by apply map_ext. }
  eexists orders, _. split; [reflexivity|]. split; [exact Hall|].
  split; [exact HR|]. split; [exact HS|]. split.
  { unfold overlays_made in *. rewrite !omap_app, O. cbn. rewrite app_nil_r.
    apply map_ext. intros o. by rewrite Hreceipt, Hshot. }
  rewrite HR, HS, !length_map. pose proof (Forall2_length _ _ _ Hall) as Hlen.
  split; [done|]. split; [done|].
  intros Hnodup. split.
  - apply NoDup_files; [|done]. intros o1 o2. rewrite <- !Hreceipt. apply receipt_file_inj.
  - apply NoDup_files; [|done]. intros o1 o2. rewrite <- !Hshot. apply screenshot_file_inj.
Qed.

Lemma one_receipt_and_screenshot_per_row_witness :
  let run := order_robots_from_RobotSpareBin 4 calm_env fresh in
  let rows := csv_rows calm_env (trace fresh ++ [mkEvent download_call None]) "orders.csv" in
  let receipt order :=
    cwd calm_env ++ ["output"; "receipts";
                     "receipt-" +:+ str_int (order_number order) +:+ ".pdf"] in
  let screenshot order :=
    cwd calm_env ++ ["output"; "screenshots";
                     "robot-" +:+ str_int (order_number order) +:+ ".png"] in
  exists orders d,
    snd run = extend (allocated fresh) d /\
    Forall2 (fun row order => row_order row = Some order) rows orders /\
    receipts_rendered d = map receipt orders /\
    screenshots_taken d = map screenshot orders /\
    overlays_made d = map (fun order => (screenshot order, receipt order, receipt order)) orders /\
    length (receipts_rendered d) = length rows /\
    length (screenshots_taken d) = length rows /\
    (NoDup (map order_number orders) ->
     NoDup (receipts_rendered d) /\ NoDup (screenshots_taken d)).
Proof.
  intros run.
  apply (one_receipt_and_screenshot_per_row 0 calm_env fresh (snd run)).
  vm_compute. reflexivity.
Defined.

(** The example row of the specification: one receipt and one screenshot,
    named by the order number 1. *)
Example sample_row_files :
  let run := order_robots_from_RobotSpareBin 4 calm_env fresh in
  fst run = Ok tt /\
  receipts_rendered (trace (snd run))
  = [["/"; "home"; "robot"; "output"; "receipts"; "receipt-1.pdf"]] /\
  screenshots_taken (trace (snd run))
  = [["/"; "home"; "robot"; "output"; "screenshots"; "robot-1.png"]].
Proof. repeat split; vm_compute; reflexivity. Qed.

(** ** Order ingestion *)

Lemma get_orders_parsed config cfg env w :
  heap w !! config = Some cfg ->
  fails env (trace w) (ReadTableFromCsv (orders_file_name cfg)) = None ->
  let rows := csv_rows env (trace w) (orders_file_name cfg) in
  let w' := extend w [mkEvent (ReadTableFromCsv (orders_file_name cfg)) None] in
  (exists orders,
     Forall2 (fun row order => row_order row = Some order) rows orders /\
     get_orders config env w = (Ok orders, w')) \/
  (exists before row after key,
     rows = before ++ row :: after /\
     Forall (fun row => missing_column row = None) before /\
     missing_column row = Some key /\
     get_orders config env w = (Raised (KeyError key), w')).
Proof.
  intros Hcfg Hread rows w'.
  assert (Hget : get_orders config env w = comprehension Order_of_row rows env w').
  { unfold get_orders. unfold bind at 1. rewrite (getattr_ok _ _ _ _ _ Hcfg).
    unfold bind at 1.
    destruct (read_table_from_csv_cases (orders_file_name cfg) env w)
      as [[_ ->] | [e [He _]]]; [done|congruence]. }
  rewrite Hget.
  destruct (comprehension_cases rows env w')
    as [(orders & Hall & Hc) | (before & row & after & key & Hrows & Hb & Hkey & Hc)].
  - left. exists orders. by split.
  - right. by exists before, row, after, key.
Qed.

Lemma Forall2_row_order_complete rows orders row key :
  Forall2 (fun row order => row_order row = Some order) rows orders ->
  row ∈ rows -> key ∈ expected_columns -> ~ lacks row key.
Proof.
  intros Hall Hrow Hkey Hlacks.
  apply list_elem_of_lookup in Hrow as [i Hi].
  destruct (Forall2_lookup_l _ _ _ _ _ Hall Hi) as (order & _ & Horder).
  by rewrite (lacks_row_order _ _ Hkey Hlacks) in Horder.
Qed.

Lemma task_run_download_raised env w1 r d e :
  task_run env w1 r d ->
  fails env (trace w1) download_call = Some e ->
  r = Raised e /\ d = [mkEvent download_call (Some e)].
Proof. destruct 1; intros He; try congruence. split; congruence. Qed.

Lemma task_run_read_raised env w1 r d e :
  task_run env w1 r d ->
  fails env (trace w1) download_call = None ->
  fails env (trace w1 ++ [mkEvent download_call None]) read_call = Some e ->
  r = Raised e /\ d = [mkEvent download_call None; mkEvent read_call (Some e)].
Proof. destruct 1; intros Hd He; try congruence. split; congruence. Qed.

Lemma task_ingestion_raised extra env w e w' :
  fails env (trace w) download_call = None ->
  get_orders (length (heap w)) env (extend (allocated w) [mkEvent download_call None])
  = (Raised e, w') ->
  order_robots_from_RobotSpareBin (4 + extra) env w = (Raised e, w').
Proof.
  intros Hd Hget. unfold order_robots_from_RobotSpareBin.
  unfold bind at 1, Config_new. fold (allocated w).
  pose proof (allocated_lookup w) as Hcfg.
  unfold bind at 1. rewrite (getattr_ok _ _ _ _ _ Hcfg).
  unfold bind at 1. rewrite (getattr_ok _ _ _ _ _ Hcfg).
  unfold bind at 1, download_file.
  change (Download _ _ true) with download_call.
  destruct (call_cases download_call env (allocated w)) as [[_ ->] | [e' [He _]]];
    [|cbn in He; congruence].
  unfold bind at 1. by rewrite Hget.
Qed.

(** C6, as stated, fails: a file with nothing but the header line
    [Order number, Head, Body, Address] lacks the expected column Legs, and
    is read as the table without rows.  [get_orders] then reads no column
    at all: it returns the empty list, and the task goes on, opens the
    shop, closes the modal, archives the receipts folder and returns.  No
    error is raised. *)
Lemma header_only_table_counterexample :
  let columns := ["Order number"; "Head"; "Body"; "Address"] in
  let w2 := extend (allocated fresh) [mkEvent download_call None] in
  let run := order_robots_from_RobotSpareBin 4 empty_table_env fresh in
  "Legs" ∈ expected_columns /\ ("Legs" ∉ columns) /\
  csv_rows empty_table_env (trace w2) "orders.csv" = [] /\
  has_header columns (csv_rows empty_table_env (trace w2) "orders.csv") /\
  fst (get_orders 0 empty_table_env w2) = Ok [] /\
  fst run = Ok tt /\
  (forall e, fst run <> Raised e) /\
  map action (trace (snd run)) =
    [Download "https://robotsparebinindustries.com/orders.csv" "orders.csv" true;
     ReadTableFromCsv "orders.csv";
     Goto "https://robotsparebinindustries.com/#robot-order";
     Click "button:text('OK')" None;
     ArchiveFolderWithZip ["/"; "home"; "robot"; "output"; "receipts"]
       ["/"; "home"; "robot"; "output"; "receipts.zip"]].
Proof.
  cbv zeta. split; [|split; [|split; [|split; [|split; [|split; [|split]]]]]].
  - unfold expected_columns. rewrite !elem_of_cons. auto 10.
  - rewrite !elem_of_cons, elem_of_nil. intros [H|[H|[H|[H|[]]]]]; discriminate H.
  - reflexivity.
  - intros row key Hrow. by apply elem_of_nil in Hrow.
  - reflexivity.
  - reflexivity.
  - intros e H. vm_compute in H. discriminate H.
  - reflexivity.
Qed.

(** C6, amended.  For every run of the task: the first call is the download
    of the orders file by its URL to the local file name, with overwriting
    switched on.  If the download raises, the task raises that error and
    does nothing more.  If the reading of the table raises, the task raises
    that error and does nothing more.  If both return: when no row lacks an
    expected column, [get_orders] returns one order per row, in the order
    of the rows, each made of the cells of its row; when some row lacks an
    expected column, [get_orders] raises a [KeyError] for an expected
    column, returns no orders, and the task raises that error and does
    nothing more.  So a table without rows gives the empty list and the
    task goes on to open the shop, whatever the header of the table; and a
    table with at least one row whose header lacks an expected column makes
    the task raise the [KeyError] of an expected column that the header
    lacks, right after the reading. *)
Theorem order_ingestion (extra : nat) (env : Env) (w : World) :
  let config := length (heap w) in
  let w1 := allocated w in
  let w2 := extend w1 [mkEvent download_call None] in
  let w3 := extend w2 [mkEvent read_call None] in
  let rows := csv_rows env (trace w2) "orders.csv" in
  let task := order_robots_from_RobotSpareBin (4 + extra) env w in
  download_call
  = Download (orders_file_url Config_defaults) (orders_file_name Config_defaults) true /\
  (exists r d outcome rest,
     task = (r, extend w1 d) /\ d = mkEvent download_call outcome :: rest) /\
  (forall e,
     fails env (trace w) download_call = Some e ->
     task = (Raised e, extend w1 [mkEvent download_call (Some e)])) /\
  (forall e,
     fails env (trace w) download_call = None ->
     fails env (trace w2) read_call = Some e ->
     task = (Raised e, extend w2 [mkEvent read_call (Some e)])) /\
  (fails env (trace w) download_call = None ->
   fails env (trace w2) read_call = None ->
   (forall row key, row ∈ rows -> key ∈ expected_columns -> ~ lacks row key) ->
   exists orders,
     get_orders config env w2 = (Ok orders, w3) /\
     length orders = length rows /\
     Forall2 (fun row order => row_order row = Some order) rows orders /\
     (forall i row, rows !! i = Some row ->
        exists order, orders !! i = Some order /\ row_order row = Some order)) /\
  (forall row key,
     fails env (trace w) download_call = None ->
     fails env (trace w2) read_call = None ->
     row ∈ rows -> key ∈ expected_columns -> lacks row key ->
     exists key',
       key' ∈ expected_columns /\
       get_orders config env w2 = (Raised (KeyError key'), w3) /\
       task = (Raised (KeyError key'), w3)) /\
  (fails env (trace w) download_call = None ->
   fails env (trace w2) read_call = None ->
   rows = [] ->
   get_orders config env w2 = (Ok [], w3) /\
   exists r outcome rest,
     task = (r, extend w1 (mkEvent download_call None :: mkEvent read_call None
                           :: mkEvent (Goto (robot_order_website_url Config_defaults)) outcome
                           :: rest))) /\
  (forall columns key,
     fails env (trace w) download_call = None ->
     fails env (trace w2) read_call = None ->
     has_header columns rows -> rows <> [] ->
     key ∈ expected_columns -> key ∉ columns ->
     exists key',
       key' ∈ expected_columns /\ (key' ∉ columns) /\
       get_orders config env w2 = (Raised (KeyError key'), w3) /\
       task = (Raised (KeyError key'), w3)).
Proof.
  intros config w1 w2 w3 rows task.
  destruct (order_robots_run extra env w) as (r & d & Hrun & Htask).
  fold task w1 in Hrun, Htask.
  pose proof (allocated_lookup w) as Hcfg. fold config w1 in Hcfg.
  split; [reflexivity|]. split; [|split; [|split; [|split; [|split; [|split]]]]].
  - exists r, d. rewrite Hrun.
    destruct Htask; eexists _, _; (split; [reflexivity|]); reflexivity.
  - intros e He. rewrite Hrun.
    destruct (task_run_download_raised _ _ _ _ _ Htask He) as [-> ->]. reflexivity.
  - intros e Hd He. rewrite Hrun.
    destruct (task_run_read_raised _ _ _ _ _ Htask Hd He) as [-> ->].
    unfold w2. by rewrite extend_extend.
  - intros Hd Hr Hcomplete.
    destruct (get_orders_parsed config Config_defaults env w2 Hcfg Hr)
      as [(orders & Hall & Hget) | (before & row & after & key & Hrows & _ & Hkey & _)].
    + exists orders. split; [exact Hget|].
      split; [symmetry; by eapply Forall2_length|]. split; [exact Hall|].
      intros i row Hi.
      destruct (Forall2_lookup_l _ _ _ _ _ Hall Hi) as (order & Ho & Horder). eauto.
    + apply missing_column_lacks in Hkey as [Hkey Hlacks].
      destruct (Hcomplete row key); [|done..].
      change rows with (csv_rows env (trace w2) (orders_file_name Config_defaults)).
      rewrite Hrows. apply elem_of_app. right. apply elem_of_cons. auto.
  - intros row key Hd Hr Hrow Hkey Hlacks.
    destruct (get_orders_parsed config Config_defaults env w2 Hcfg Hr)
      as [(orders & Hall & _) | (before & row' & after & key' & _ & _ & Hkey' & Hget)].
    + by destruct (Forall2_row_order_complete _ _ _ _ Hall Hrow Hkey Hlacks).
    + exists key'. split; [by apply missing_column_lacks in Hkey' as [? _]|].
      split; [exact Hget|]. by apply task_ingestion_raised.
  - intros Hd Hr Hrows.
    destruct (get_orders_parsed config Config_defaults env w2 Hcfg Hr)
      as [(orders & Hall & Hget) | (before & row' & after & key' & Hsplit & _)].
    + change (csv_rows env (trace w2) (orders_file_name Config_defaults)) with rows in Hall.
      rewrite Hrows in Hall. apply Forall2_nil_inv_l in Hall as ->.
      split; [exact Hget|].
      rewrite Hrun.
      change (trace w) with (trace w1) in Hd.
      change (trace w2) with (trace w1 ++ [mkEvent download_call None]) in Hr.
      assert (Hrows' : csv_rows env (trace w1 ++ [mkEvent download_call None]) "orders.csv"
                       = []) by exact Hrows.
      destruct Htask as [e He|e _ He|before row after key _ _ Hsplit _ _
                        |orders e d _ _ _ Hopen|orders e d _ _ _ _
                        |orders d r dz _ _ _ _ _].
      * congruence.
      * congruence.
      * rewrite Hrows' in Hsplit. by destruct before.
      * inversion Hopen; subst; eexists _, _, _; reflexivity.
      * eexists _, _, _; reflexivity.
      * eexists _, _, _; reflexivity.
    + change (csv_rows env (trace w2) (orders_file_name Config_defaults)) with rows in Hsplit.
      rewrite Hrows in Hsplit. by destruct before.
  - intros columns key Hd Hr Hheader Hne Hkey Hmiss.
    destruct (get_orders_parsed config Config_defaults env w2 Hcfg Hr)
      as [(orders & Hall & _) | (before & row' & after & key' & Hsplit & _ & Hkey' & Hget)].
    + change (csv_rows env (trace w2) (orders_file_name Config_defaults)) with rows in Hall.
      destruct rows as [|row rest] eqn:Hrows; [done|].
      assert (Hrow : row ∈ row :: rest) by (apply elem_of_cons; auto).
      destruct (Forall2_row_order_complete _ _ _ _ Hall Hrow Hkey).
      by apply Hheader.
    + change (csv_rows env (trace w2) (orders_file_name Config_defaults)) with rows in Hsplit.
      apply missing_column_lacks in Hkey' as [Hkey' Hlacks].
      exists key'. split; [exact Hkey'|]. split.
      * apply (Hheader row' key'); [|done..].
        rewrite Hsplit. apply elem_of_app. right. apply elem_of_cons. auto.
      * split; [exact Hget|]. by apply task_ingestion_raised.
Qed.

Lemma order_ingestion_witness :
  let w2 := extend (allocated fresh) [mkEvent download_call None] in
  let w3 := extend w2 [mkEvent read_call None] in
  let rows := csv_rows calm_env (trace w2) "orders.csv" in
  (exists orders,
     get_orders 0 calm_env w2 = (Ok orders, w3) /\
     length orders = length rows /\
     Forall2 (fun row order => row_order row = Some order) rows orders /\
     (forall i row, rows !! i = Some row ->
        exists order, orders !! i = Some order /\ row_order row = Some order)) /\
  (exists key',
     key' ∈ expected_columns /\
     (key' ∉ ["Order number"; "Head"; "Body"; "Address"]) /\
     get_orders 0 legless_table_env w2 = (Raised (KeyError key'), w3) /\
     order_robots_from_RobotSpareBin 4 legless_table_env fresh
     = (Raised (KeyError key'), w3)).
Proof.
  split.
  - destruct (order_ingestion 0 calm_env fresh) as (_ & _ & _ & _ & H & _).
    apply H.
    + reflexivity.
    + reflexivity.
    + intros row key Hrow Hkey.
      apply list_elem_of_singleton in Hrow as ->.
      unfold expected_columns in Hkey. rewrite !elem_of_cons in Hkey.
      destruct Hkey as [->|[->|[->|[->|[->|Hkey]]]]];
        [vm_compute; discriminate..|by apply elem_of_nil in Hkey].
  - destruct (order_ingestion 0 legless_table_env fresh) as (_ & _ & _ & _ & _ & _ & _ & H).
    apply (H ["Order number"; "Head"; "Body"; "Address"] "Legs").
    + reflexivity.
    + reflexivity.
    + intros row key Hrow Hkey.
      apply list_elem_of_singleton in Hrow as ->.
      unfold expected_columns in Hkey. rewrite !elem_of_cons in Hkey.
      rewrite !elem_of_cons, elem_of_nil.
      destruct Hkey as [->|[->|[->|[->|[->|Hkey]]]]];
        [..|by apply elem_of_nil in Hkey];
        (split; [intros Hl | intros Hn]);
        try (vm_compute in Hl; discriminate Hl);
        try (destruct Hn; auto 10; fail);
        try (vm_compute; reflexivity);
        try (intros [H'|[H'|[H'|[H'|[]]]]]; discriminate H').
    + discriminate.
    + unfold expected_columns. rewrite !elem_of_cons. auto 10.
    + rewrite !elem_of_cons, elem_of_nil. intros [H'|[H'|[H'|[H'|[]]]]]; discriminate H'.
Defined.

(** A row without the Legs column: the task raises [KeyError('Legs')] after
    the download and the reading, before the shop is opened. *)
Example missing_legs_column_is_fatal :
  order_robots_from_RobotSpareBin 4 legless_env fresh
  = (Raised (KeyError "Legs"),
     extend (allocated fresh) [mkEvent download_call None; mkEvent read_call None]).
Proof. vm_compute. reflexivity. Qed.

(** Three loop tests are not enough for the model of the loop: when the
    third retry succeeds, the loop condition is tested a fourth time. *)
Example submit_order_needs_four_tests :
  fst (submit_order 3 slow_receipt_env form_filled) = OutOfFuel /\
  fst (submit_order 4 slow_receipt_env form_filled) = Ok tt /\
  order_clicks (trace (snd (submit_order 4 slow_receipt_env form_filled))) = 4%nat.
Proof. repeat split; vm_compute; reflexivity. Qed.

(** * Further properties of the script *)

(** ** The shape of the submit attempts *)

Lemma extend_inj w d1 d2 : extend w d1 = extend w d2 -> d1 = d2.
Proof. unfold extend. intros [= H]. by apply app_inv_head in H. Qed.

Lemma retry_attempts (n : nat) : forall e0 env w,
  exists r d ds,
    retry n e0 env w = (r, extend w d) /\
    Forall failed_attempt_events ds /\
    ((r = Ok tt /\ (length ds < n)%nat /\
      d = concat ds ++ [mkEvent order_click None; mkEvent receipt_wait None]) \/
     (r = Raised (Exception (exhausted_message e0)) /\ length ds = n /\ d = concat ds)).
Proof.
  induction n as [|n IH]; intros e0 env w.
  - exists (Raised (Exception (exhausted_message e0))), [], [].
    rewrite extend_nil. split; [done|]. split; [constructor|]. by right.
  - cbn [retry]. unfold try_except.
    destruct (attempt_cases env w) as (r1 & d1 & -> & Hshape).
    destruct (IH e0 env (extend w d1)) as (r & d & ds & Hrun & Hall & Hcases).
    rewrite extend_extend in Hrun.
    assert (Hgo : forall e, attempt_shape (Raised e) d1 ->
      exists r0 d0 ds0,
        retry n e0 env (extend w d1) = (r0, extend w d0) /\
        Forall failed_attempt_events ds0 /\
        ((r0 = Ok tt /\ (length ds0 < S n)%nat /\
          d0 = concat ds0 ++ [mkEvent order_click None; mkEvent receipt_wait None]) \/
         (r0 = Raised (Exception (exhausted_message e0)) /\ length ds0 = S n /\
          d0 = concat ds0))).
    { intros e He. exists r, (d1 ++ d), (d1 :: ds). split; [done|].
      split; [constructor; [by exists e|done]|].
      destruct Hcases as [(-> & Hlen & ->) | (-> & Hlen & ->)]; [left|right];
        cbn [concat length]; rewrite <- ?app_assoc; repeat split; auto; lia. }
    inversion Hshape; subst; eauto using attempt_click_raised, attempt_wait_raised.
    exists (Ok tt), [mkEvent order_click None; mkEvent receipt_wait None], [].
    split; [done|]. split; [constructor|]. left. cbn. repeat split. lia.
Qed.

Lemma submit_with_retries_attempts env w :
  exists r n d,
    submit_with_retries env w = (r, extend w d) /\
    attempts_run r n d /\ (1 <= n <= 4)%nat /\ (r <> Ok tt -> n = 4%nat).
Proof.
  unfold submit_with_retries, try_except.
  destruct (attempt_cases env w) as (r1 & d1 & -> & Hshape).
  assert (Hgo : forall e, attempt_shape (Raised e) d1 ->
    exists r n d,
      retry 3 e env (extend w d1) = (r, extend w d) /\
      attempts_run r n d /\ (1 <= n <= 4)%nat /\ (r <> Ok tt -> n = 4%nat)).
  { intros e He.
    destruct (retry_attempts 3 e env (extend w d1)) as (r & d & ds & Hrun & Hall & Hcases).
    rewrite extend_extend in Hrun.
    destruct Hcases as [(-> & Hlen & ->) | (-> & Hlen & ->)].
    - exists (Ok tt), (S (length (d1 :: ds))), 
        (d1 ++ concat ds ++ [mkEvent order_click None; mkEvent receipt_wait None]).
      split; [done|]. split; [|split; [cbn; lia|done]].
      rewrite app_assoc. apply (attempts_returned (d1 :: ds)).
      constructor; [by exists e|done].
    - exists (Raised (Exception (exhausted_message e))), (S (length ds)), (d1 ++ concat ds).
      split; [done|]. split; [|lia]. by apply attempts_exhausted. }
  inversion Hshape as [e|e|]; subst.
  - apply Hgo. constructor.
  - apply Hgo. constructor.
  - exists (Ok tt), 1%nat, [mkEvent order_click None; mkEvent receipt_wait None].
    split; [done|]. split; [|split; [lia|done]]. apply (attempts_returned []). constructor.
Qed.

Lemma failed_attempts_clicks ds :
  Forall failed_attempt_events ds ->
  order_clicks (concat ds) = length ds /\ (length (concat ds) <= 2 * length ds)%nat /\
  Forall (fun ev => ~ (action ev = receipt_wait /\ raised ev = None)) (concat ds).
Proof.
  induction 1 as [|d ds [e Hshape] _ (IHc & IHl & IHn)]; [by repeat split; constructor|].
  cbn [concat length]. rewrite order_clicks_app, length_app, IHc, Forall_app.
  assert (Hd : Forall (fun ev => ~ (action ev = receipt_wait /\ raised ev = None)) d).
  { inversion Hshape; subst;
      repeat first [apply Forall_nil_2
                   | apply Forall_cons_2;
                     [cbn; unfold order_click, receipt_wait; intros [? ?]; congruence|]]. }
  inversion Hshape; subst; cbn; (split; [done|]); (split; [lia|]); by split.
Qed.

Lemma attempts_run_clicks r n d :
  attempts_run r n d -> order_clicks d = n /\ (length d <= 2 * n)%nat.
Proof.
  destruct 1 as [ds Hall | e0 d0 ds Hshape Hall];
    destruct (failed_attempts_clicks ds Hall) as (Hc & Hl & _);
    rewrite order_clicks_app, length_app, Hc.
  - cbn. lia.
  - rewrite (attempt_shape_clicks _ _ Hshape). split; [done|].
    inversion Hshape; subst; cbn; lia.
Qed.

Lemma only_last {A} (P : A -> Prop) (l : list A) x before ev after :
  Forall (fun y => ~ P y) l ->
  l ++ [x] = before ++ ev :: after ->
  P ev ->
  after = [] /\ ev = x.
Proof.
  intros Hl Heq Hev. destruct after as [|y after _] using rev_ind.
  - by apply app_inj_tail in Heq as [_ ->].
  - exfalso. rewrite app_comm_cons, app_assoc in Heq.
    apply app_inj_tail in Heq as [-> _].
    rewrite Forall_app, Forall_cons in Hl. by destruct Hl as (_ & Hno & _).
Qed.

(** X10.  For every environment and world, [submit_order] makes between one
    and four attempts and then either returns, right after the first
    attempt that returned, or raises; it raises only after four attempts
    that all raised, and then its error is always its own [Exception] built
    from the error of the first attempt, never an error of the page. *)
Theorem submit_order_attempts (extra : nat) (env : Env) (w : World) :
  exists r n d,
    submit_order (4 + extra) env w = (r, extend w d) /\
    attempts_run r n d /\
    order_clicks d = n /\
    (1 <= n <= 4)%nat /\
    (length d <= 2 * n)%nat /\
    (r <> Ok tt -> n = 4%nat).
Proof.
  destruct (submit_with_retries_attempts env w) as (r & n & d & Hrun & Hatt & Hn & Hraised).
  pose proof (attempts_run_clicks _ _ _ Hatt) as [Hc Hl].
  exists r, n, d. by rewrite submit_order_retry.
Qed.

(** X5.  For every run of [submit_order]: a wait for [#receipt] that
    returned is the last event of the run, and the run returns.  So once
    the receipt is visible the Order button is not clicked again. *)
Theorem no_click_after_receipt
    (extra : nat) (env : Env) (w w' : World) (r : Result unit)
    (before after : list Event) (ev : Event) :
  submit_order (4 + extra) env w = (r, w') ->
  trace w' = trace w ++ before ++ ev :: after ->
  action ev = receipt_wait ->
  raised ev = None ->
  after = [] /\ r = Ok tt.
Proof.
  intros Hrun Htrace Hact Hret.
  destruct (submit_with_retries_attempts env w) as (r0 & n & d & Hrun0 & Hatt & _).
  rewrite submit_order_retry, Hrun0 in Hrun. injection Hrun as <- <-.
  cbn in Htrace. apply app_inv_head in Htrace.
  destruct Hatt as [ds Hall | e0 d0 ds Hshape Hall];
    destruct (failed_attempts_clicks ds Hall) as (_ & _ & Hnone).
  - split; [|done].
    rewrite (cons_middle (mkEvent order_click None)), app_assoc in Htrace.
    eapply (only_last (fun ev => action ev = receipt_wait /\ raised ev = None));
      [|exact Htrace|done].
    rewrite Forall_app. split; [done|]. apply Forall_cons_2; [|apply Forall_nil_2].
    cbn. unfold order_click, receipt_wait. intros [? _]. congruence.
  - exfalso.
    assert (Hin : ev ∈ d0 ++ concat ds).
    { rewrite Htrace, elem_of_app, elem_of_cons. auto. }
    apply elem_of_app in Hin as [Hin|Hin].
    + inversion Hshape; subst; rewrite ?elem_of_cons in Hin;
        destruct Hin as [->|Hin]; cbn in *; unfold order_click, receipt_wait in *;
        try congruence;
        try (destruct Hin as [->|Hin]; cbn in *; try congruence);
        by apply elem_of_nil in Hin.
    + rewrite Forall_forall in Hnone. by apply (Hnone ev Hin).
Qed.

Lemma no_click_after_receipt_witness :
  let before := [mkEvent order_click (Some timeout_error); mkEvent order_click None] in
  trace (snd (submit_order 4 click_fails_once_env form_filled))
  = trace form_filled ++ before ++ [mkEvent receipt_wait None] /\
  fst (submit_order 4 click_fails_once_env form_filled) = Ok tt.
Proof.
  intros before.
  destruct (no_click_after_receipt 0 click_fails_once_env form_filled
              (snd (submit_order 4 click_fails_once_env form_filled))
              (fst (submit_order 4 click_fails_once_env form_filled))
              before [] (mkEvent receipt_wait None)) as [_ Hr].
  - vm_compute. reflexivity.
  - vm_compute. reflexivity.
  - reflexivity.
  - reflexivity.
  - split; [vm_compute; reflexivity|exact Hr].
Defined.

(** ** The calls a run can make *)

Lemma match_1000 (t : Z) (b : bool) :
  match t with 1000 => b | _ => false end = true -> t = 1000 /\ b = true.
Proof.
  destruct (decide (t = 1000)) as [->|Hne]; [done|].
  intros H. exfalso. repeat (case_match; try discriminate). by apply Hne.
Qed.

Lemma is_submit_action_inv a :
  is_submit_action a = true -> a = order_click \/ a = receipt_wait.
Proof.
  unfold is_submit_action, order_click, receipt_wait.
  destruct a as [| | |selector [timeout|]| | |selector state timeout| | | | |]; cbn;
    try discriminate.
  - rewrite orb_false_r. intros [-> Hs]%match_1000.
    apply String.eqb_eq in Hs as ->. by left.
  - intros [-> Hs]%match_1000. apply andb_true_iff in Hs as [Hs1 Hs2].
    apply String.eqb_eq in Hs1 as ->. apply String.eqb_eq in Hs2 as ->. by right.
Qed.

Lemma calls_run_actions (Q : Action -> Prop) env w plan r d :
  calls_run env w plan r d -> Forall Q plan -> Forall (fun ev => Q (action ev)) d.
Proof.
  intros Hrun Hplan. apply Forall_forall. intros ev Hev.
  rewrite Forall_forall in Hplan. apply Hplan. by eapply calls_run_elem_of.
Qed.

Lemma submit_events_actions (Q : Action -> Prop) d :
  Q order_click -> Q receipt_wait -> submit_events d ->
  Forall (fun ev => Q (action ev)) d.
Proof.
  intros Hc Hw Hsub. eapply Forall_impl; [exact Hsub|].
  intros ev [->| ->]%is_submit_action_inv; done.
Qed.

Lemma order_run_actions (Q : Action -> Prop) env w cfg order r d :
  Forall Q (fill_plan order) ->
  Q order_click -> Q receipt_wait ->
  (forall html, Forall Q (capture_plan (cwd env) cfg order html ++ return_plan)) ->
  order_run env w cfg order r d ->
  Forall (fun ev => Q (action ev)) d.
Proof.
  intros Hfill Hc Hw Hcap
    [e d0 Hrun | d1 d2 e Hrun Hsubmit Hevents | d1 d2 html r0 d3 Hrun Hsubmit Hevents Hrest];
    rewrite ?Forall_app; repeat split;
    eauto using calls_run_actions, submit_events_actions.
Qed.

Lemma batch_run_actions (Q : Action -> Prop) env cfg w orders r d :
  (forall order, Forall Q (fill_plan order)) ->
  Q order_click -> Q receipt_wait ->
  (forall order html, Forall Q (capture_plan (cwd env) cfg order html ++ return_plan)) ->
  batch_run env cfg w orders r d ->
  Forall (fun ev => Q (action ev)) d.
Proof.
  intros Hfill Hc Hw Hcap.
  induction 1 as [w | w order rest e d Horder | w order rest d1 r d2 Horder Hrest IH].
  - constructor.
  - eapply order_run_actions; eauto.
  - rewrite Forall_app. split; [|done]. eapply order_run_actions; eauto.
Qed.

Lemma task_run_actions (Q : Action -> Prop) env w1 r d :
  Q download_call -> Q read_call -> Forall Q opening_plan -> Q (archive_call (cwd env)) ->
  (forall order, Forall Q (fill_plan order)) ->
  Q order_click -> Q receipt_wait ->
  (forall order html,
     Forall Q (capture_plan (cwd env) Config_defaults order html ++ return_plan)) ->
  task_run env w1 r d ->
  Forall (fun ev => Q (action ev)) d.
Proof.
  intros Hd Hr Hopen Hzip Hfill Hc Hw Hcap
    [e _ | e _ _ | before row after key _ _ _ _ _
    | orders e d0 _ _ _ Hrun | orders e d0 _ _ _ Hbatch
    | orders d0 r0 d_zip _ _ _ Hbatch Hrun];
    rewrite ?Forall_app; repeat split;
    try (repeat (apply Forall_cons_2; [done|]); apply Forall_nil_2);
    try (apply Forall_fmap; exact Hopen);
    eauto using calls_run_actions, batch_run_actions.
Qed.

Lemma capture_plan_Forall (Q : Action -> Prop) cwd cfg order html :
  (forall selector, Q (WaitForSelector selector "visible" 5000)) ->
  Q (Screenshot (screenshot_file cwd cfg order)) ->
  Q (InnerHtml "#receipt") ->
  Q (HtmlToPdf html (receipt_file cwd cfg order)) ->
  Q (AddWatermarkImageToPdf (screenshot_file cwd cfg order) (receipt_file cwd cfg order)
       (receipt_file cwd cfg order)) ->
  Forall Q return_plan ->
  Forall Q (capture_plan cwd cfg order html ++ return_plan).
Proof.
  intros Hwait Hshot Hhtml Hpdf Hmark Hreturn.
  unfold capture_plan. rewrite !Forall_app. repeat split; [|by repeat constructor|done].
  apply Forall_forall. intros a [selector ->]%preview_waits_are_waits. apply Hwait.
Qed.

(** X8.  In every run of the task, every wait for a selector waits for the
    selector to become visible with a timeout of 1000 or 5000 ms, and every
    click that sets a timeout sets 1000 ms: no wait of the script is
    unbounded. *)
Theorem every_wait_is_bounded (extra : nat) (env : Env) (w : World) :
  exists r d,
    order_robots_from_RobotSpareBin (4 + extra) env w = (r, extend (allocated w) d) /\
    Forall (fun ev => bounded_wait (action ev) = true) d.
Proof.
  destruct (order_robots_run extra env w) as (r & d & Hrun & Htask).
  exists r, d. split; [done|].
  eapply (task_run_actions (fun a => bounded_wait a = true)); [..|exact Htask];
    try done.
  - by repeat constructor.
  - intros order. by repeat constructor.
  - intros order html. apply capture_plan_Forall; try done. by repeat constructor.
Qed.

(** ** The archive and the output files *)

Lemma joinpath_receipts_zip p : joinpath p "receipts.zip" = p ++ ["receipts.zip"].
Proof. by apply joinpath_name. Qed.

Lemma archive_receipts_call config cfg env w :
  heap w !! config = Some cfg ->
  exists r d,
    archive_receipts config env w = (r, extend w d) /\
    calls_run env w
      [ArchiveFolderWithZip (absolute_from (cwd env) (output_dir cfg) ++ ["receipts"])
         (absolute_from (cwd env) (output_dir cfg) ++ ["receipts.zip"])] r d.
Proof.
  intros Hcfg. unfold archive_receipts.
  unfold bind at 1. rewrite (getattr_ok _ _ _ _ _ Hcfg).
  unfold bind at 1, absolute.
  unfold bind at 1. rewrite (getattr_ok _ _ _ _ _ Hcfg).
  unfold bind at 1.
  rewrite joinpath_receipts, joinpath_receipts_zip.
  rewrite !(absolute_from_app _ _ _ []) by done.
  next_call; close_run.
Qed.

(** X3.  For every configuration, [archive_receipts] zips the directory in
    which [store_receipt_as_pdf] writes the receipts: the receipt of every
    order lies directly in the archived folder, while no screenshot and not
    the archive file itself lie below it. *)
Theorem archive_folder_holds_the_receipts
    (config : ref) (cfg : Config) (env : Env) (w : World) :
  heap w !! config = Some cfg ->
  exists r d folder archive_name,
    archive_receipts config env w = (r, extend w d) /\
    calls_run env w [ArchiveFolderWithZip folder archive_name] r d /\
    (forall order,
       receipt_file (cwd env) cfg order
       = folder ++ ["receipt-" +:+ str_int (order_number order) +:+ ".pdf"]) /\
    (forall order, ~ folder `prefix_of` screenshot_file (cwd env) cfg order) /\
    ~ folder `prefix_of` archive_name.
Proof.
  intros Hcfg.
  destruct (archive_receipts_call config cfg env w Hcfg) as (r & d & Hrun & Hplan).
  eexists r, d, _, _. split; [exact Hrun|]. split; [exact Hplan|].
  repeat split.
  - intros order. unfold receipt_file. by rewrite <- app_assoc.
  - intros order [rest Hrest]. unfold screenshot_file in Hrest.
    rewrite <- app_assoc in Hrest. apply app_inv_head in Hrest. discriminate.
  - intros [rest Hrest]. rewrite <- app_assoc in Hrest.
    apply app_inv_head in Hrest. discriminate.
Qed.

Lemma archive_folder_holds_the_receipts_witness :
  exists r d folder archive_name,
    archive_receipts 0 calm_env configured = (r, extend configured d) /\
    calls_run calm_env configured [ArchiveFolderWithZip folder archive_name] r d /\
    (forall order,
       receipt_file (cwd calm_env) Config_defaults order
       = folder ++ ["receipt-" +:+ str_int (order_number order) +:+ ".pdf"]) /\
    (forall order, ~ folder `prefix_of` screenshot_file (cwd calm_env) Config_defaults order) /\
    ~ folder `prefix_of` archive_name.
Proof.
  apply (archive_folder_holds_the_receipts 0 Config_defaults calm_env configured).
  reflexivity.
Defined.

(** ** Rows and orders *)

Lemma row_order_row_with order other : row_order (row_with order other) = Some order.
Proof.
  unfold row_order, row_with. cbn [int_cells str_cells].
  rewrite lookup_insert_eq.
  rewrite lookup_insert_eq.
  rewrite lookup_insert_ne, lookup_insert_eq by done.
  rewrite !lookup_insert_ne, lookup_insert_eq by done.
  rewrite !lookup_insert_ne, lookup_insert_eq by done.
  by destruct order.
Qed.

(** X9.  [get_orders] hands back the cells as they are: for a table whose
    rows carry the fields of a list of orders, whatever other columns the
    rows have, it returns exactly that list, in that order, and makes the
    one call that reads the table. *)
Theorem get_orders_returns_the_cells
    (config : ref) (cfg : Config) (env : Env) (w : World)
    (orders : list Order) (others : list Row) :
  heap w !! config = Some cfg ->
  fails env (trace w) (ReadTableFromCsv (orders_file_name cfg)) = None ->
  length others = length orders ->
  csv_rows env (trace w) (orders_file_name cfg) = zip_with row_with orders others ->
  get_orders config env w
  = (Ok orders, extend w [mkEvent (ReadTableFromCsv (orders_file_name cfg)) None]).
Proof.
  intros Hcfg Hread Hlen Hrows.
  destruct (get_orders_parsed config cfg env w Hcfg Hread)
    as [(orders' & Hall & Hget) | (before & row & after & key & Hsplit & _ & Hkey & _)].
  - rewrite Hget. f_equal. f_equal. rewrite Hrows in Hall. clear -Hall Hlen.
    revert others orders' Hlen Hall.
    induction orders as [|o orders IH]; intros [|x others] orders' Hlen Hall;
      try done; cbn in Hall.
    + by apply Forall2_nil_inv_l in Hall.
    + apply Forall2_cons_inv_l in Hall as (o' & rest & Ho & Hrest & ->).
      rewrite row_order_row_with in Ho. injection Ho as <-.
      f_equal. apply (IH others); [by injection Hlen|done].
  - exfalso. rewrite Hrows in Hsplit.
    assert (Hin : row ∈ zip_with row_with orders others).
    { rewrite Hsplit, elem_of_app, elem_of_cons. auto. }
    apply elem_of_lookup_zip_with in Hin as (i & o & x & -> & _ & _).
    destruct (Order_of_row_cases (row_with o x) env w)
      as [(? & _ & Hnone & _) | (? & Hnot & _ & _)]; [congruence|].
    by rewrite row_order_row_with in Hnot.
Qed.

Lemma get_orders_returns_the_cells_witness :
  get_orders 0 second_pdf_fails_env configured
  = (Ok [sample_order; head_3_order],
     extend configured [mkEvent (ReadTableFromCsv "orders.csv") None]).
Proof.
  apply (get_orders_returns_the_cells 0 Config_defaults second_pdf_fails_env configured
           [sample_order; head_3_order]
           [mkRow ∅ ∅; sample_row]).
  - reflexivity.
  - reflexivity.
  - reflexivity.
  - vm_compute. reflexivity.
Defined.

(** ** The task after the ingestion *)

Lemma task_after_ingestion extra env w orders w3 :
  fails env (trace w) download_call = None ->
  get_orders (length (heap w)) env (extend (allocated w) [mkEvent download_call None])
  = (Ok orders, w3) ->
  order_robots_from_RobotSpareBin (4 + extra) env w
  = (open_robot_order_website (length (heap w)) ;;
     close_annoying_modal ;;
     fill_and_submit_sales_form (4 + extra) orders (length (heap w)) ;;
     archive_receipts (length (heap w))) env w3.
Proof.
  intros Hd Hget. unfold order_robots_from_RobotSpareBin.
  unfold bind at 1, Config_new. fold (allocated w).
  pose proof (allocated_lookup w) as Hcfg.
  unfold bind at 1. rewrite (getattr_ok _ _ _ _ _ Hcfg).
  unfold bind at 1. rewrite (getattr_ok _ _ _ _ _ Hcfg).
  unfold bind at 1, download_file.
  change (Download _ _ true) with download_call.
  destruct (call_cases download_call env (allocated w)) as [[_ ->] | [e' [He _]]];
    [|cbn in He; congruence].
  unfold bind at 1. by rewrite Hget.
Qed.

(** X6.  For every run in which the download and the reading of the table
    return and the table has no row: no order form is filled and nothing is
    submitted or captured; the task opens the shop, closes the modal and
    archives the receipts folder, these three calls in this order up to the
    first one that raises. *)
Theorem empty_table_runs_no_order (extra : nat) (env : Env) (w : World) :
  let w2 := extend (allocated w) [mkEvent download_call None] in
  let w3 := extend w2 [mkEvent read_call None] in
  fails env (trace w) download_call = None ->
  fails env (trace w2) read_call = None ->
  csv_rows env (trace w2) "orders.csv" = [] ->
  exists r d,
    order_robots_from_RobotSpareBin (4 + extra) env w = (r, extend w3 d) /\
    calls_run env w3 (opening_plan ++ [archive_call (cwd env)]) r d.
Proof.
  intros w2 w3 Hd Hr Hrows.
  pose proof (allocated_lookup w) as Hcfg.
  assert (Hget : get_orders (length (heap w)) env w2 = (Ok [], w3)).
  { destruct (get_orders_parsed (length (heap w)) Config_defaults env w2 Hcfg Hr)
      as [(orders & Hall & Hget) | (before & row & after & key & Hsplit & _)].
    - change (csv_rows env (trace w2) (orders_file_name Config_defaults))
        with (csv_rows env (trace w2) "orders.csv") in Hall.
      rewrite Hrows in Hall. by apply Forall2_nil_inv_l in Hall as ->.
    - change (csv_rows env (trace w2) (orders_file_name Config_defaults))
        with (csv_rows env (trace w2) "orders.csv") in Hsplit.
      rewrite Hrows in Hsplit. by destruct before. }
  rewrite (task_after_ingestion extra env w [] w3 Hd Hget).
  destruct (opening_run (length (heap w)) env w3 Hcfg
              (fill_and_submit_sales_form (4 + extra) [] (length (heap w)) ;;
               archive_receipts (length (heap w))))
    as (r1 & d1 & Hopen & ->).
  destruct (calls_run_result _ _ _ _ _ Hopen) as [-> | [e ->]].
  - unfold fill_and_submit_sales_form. cbn [for_each]. unfold bind at 1, ret.
    destruct (archive_receipts_run (length (heap w)) env (extend w3 d1) Hcfg)
      as (r & d2 & -> & Hzip).
    rewrite extend_extend. exists r, (d1 ++ d2). split; [done|].
    by eapply calls_run_app_ok.
  - exists (Raised e), d1. split; [done|]. by apply calls_run_app_raised.
Qed.

Lemma empty_table_runs_no_order_witness :
  exists r d,
    order_robots_from_RobotSpareBin 4 empty_table_env fresh
    = (r, extend (extend (extend (allocated fresh) [mkEvent download_call None])
                    [mkEvent read_call None]) d) /\
    calls_run empty_table_env
      (extend (extend (allocated fresh) [mkEvent download_call None])
         [mkEvent read_call None])
      (opening_plan ++ [archive_call (cwd empty_table_env)]) r d.
Proof.
  apply (empty_table_runs_no_order 0 empty_table_env fresh).
  - reflexivity.
  - reflexivity.
  - reflexivity.
Defined.

(** ** What is typed into the form *)






(** ** How long a run can be *)

Lemma calls_run_length env w plan r d :
  calls_run env w plan r d -> (length d <= length plan)%nat.
Proof. induction 1; cbn; lia. Qed.

Lemma part_wait_length wait part t : (length (part_wait wait part t) <= 1)%nat.
Proof. unfold part_wait. destruct (String.eqb part ""); cbn; lia. Qed.

Lemma capture_plan_length cwd cfg order html :
  (length (capture_plan cwd cfg order html ++ return_plan) <= 10)%nat.
Proof.
  unfold capture_plan, preview_waits, return_plan. rewrite !length_app. cbn [length].
  rewrite !length_app.
  pose proof (part_wait_length head_wait (head order) default_timeout).
  pose proof (part_wait_length body_wait (body order) default_timeout).
  pose proof (part_wait_length legs_wait (legs order) default_timeout).
  lia.
Qed.

Lemma submit_length env w r d :
  submit_with_retries env w = (r, extend w d) -> (length d <= 8)%nat.
Proof.
  intros Hrun.
  destruct (submit_with_retries_attempts env w) as (r' & n & d' & Hrun' & Hatt & Hn & _).
  rewrite Hrun' in Hrun. injection Hrun as _ Hd. apply app_inv_head in Hd as <-.
  apply attempts_run_clicks in Hatt as [_ Hlen]. lia.
Qed.

Lemma order_run_length env w cfg order r d :
  order_run env w cfg order r d -> (length d <= 22)%nat.
Proof.
  destruct 1 as [e d Hfill | d1 d2 e Hfill Hsubmit Hevents
                | d1 d2 html r d3 Hfill Hsubmit Hevents Hrest];
    rewrite ?length_app;
    pose proof (calls_run_length _ _ _ _ _ Hfill) as H1; cbn in H1.
  - lia.
  - rewrite <- extend_extend in Hsubmit. apply submit_length in Hsubmit. lia.
  - rewrite <- extend_extend in Hsubmit. apply submit_length in Hsubmit.
    pose proof (calls_run_length _ _ _ _ _ Hrest) as H3.
    pose proof (capture_plan_length (cwd env) cfg order html). lia.
Qed.

Lemma batch_run_length env cfg w orders r d :
  batch_run env cfg w orders r d ->
  (length d <= 22 * length orders)%nat /\ (r = Ok tt \/ exists e, r = Raised e).
Proof.
  induction 1 as [w | w order rest e d Horder
                 | w order rest d1 r d2 Horder Hrest [IHl IHr]].
  - split; [cbn; lia|by left].
  - apply order_run_length in Horder. split; [cbn [length]; lia|eauto].
  - apply order_run_length in Horder. rewrite length_app. split; [cbn [length]; lia|done].
Qed.

(** X1.  For every environment and world, the task (with a budget of at
    least four loop tests for each submit) ends: it returns or raises, after
    at most 5 + 22 N library calls, N the number of rows of the table read
    (4 calls to fill a form, at most 8 to submit it, at most 10 to capture
    the receipt and go back, and 5 calls around the batch). *)
Theorem task_ends_within_bounded_calls (extra : nat) (env : Env) (w : World) :
  exists r d,
    order_robots_from_RobotSpareBin (4 + extra) env w = (r, extend (allocated w) d) /\
    (r = Ok tt \/ exists e, r = Raised e) /\
    (length d
     <= 5 + 22 * length (csv_rows env (trace w ++ [mkEvent download_call None])
                           "orders.csv"))%nat.
Proof.
  destruct (order_robots_run extra env w) as (r & d & Hrun & Htask).
  exists r, d. split; [exact Hrun|].
  destruct Htask as [e Hd | e Hd Hr | before row after key Hd Hr Hrows Hb Hkey
                    | orders e d Hd Hr Hall Hopen | orders e d Hd Hr Hall Hbatch
                    | orders d r d_zip Hd Hr Hall Hbatch Hzip];
    try (apply Forall2_length in Hall; cbn [trace allocated] in Hall);
    rewrite ?length_app.
  - split; [eauto|cbn; lia].
  - split; [eauto|cbn; lia].
  - split; [eauto|cbn; lia].
  - apply calls_run_length in Hopen. split; [eauto|cbn in *; lia].
  - apply batch_run_length in Hbatch as [Hlen _]. split; [eauto|].
    rewrite Hall. cbn [length map opening_plan]. lia.
  - apply batch_run_length in Hbatch as [Hlen _].
    pose proof (calls_run_length _ _ _ _ _ Hzip) as Hz.
    split; [by eapply calls_run_result|].
    rewrite Hall. cbn [length map opening_plan] in *. lia.
Qed.

(** ** The files of a run that raises *)

Lemma calls_run_app_inv env p1 p2 : forall w r d,
  calls_run env w (p1 ++ p2) r d ->
  (exists e, r = Raised e /\ calls_run env w p1 (Raised e) d) \/
  (exists d1 d2,
     d = d1 ++ d2 /\ calls_run env w p1 (Ok tt) d1 /\
     calls_run env (extend w d1) p2 r d2).
Proof.
  induction p1 as [|a p1 IH]; intros w r d Hrun.
  - right. exists [], d. rewrite extend_nil. split; [done|]. split; [constructor|done].
  - cbn in Hrun. inversion Hrun as [|? ? ? e Hf|? ? ? ? d' Hf Hrest]; subst.
    + left. exists e. split; [done|]. by constructor.
    + destruct (IH _ _ _ Hrest) as [(e & -> & Hp1) | (d1 & d2 & -> & Hp1 & Hp2)].
      * left. exists e. split; [done|]. by constructor.
      * right. exists (mkEvent a None :: d1), d2. split; [done|].
        split; [by constructor|]. rewrite extend_extend in Hp2. exact Hp2.
Qed.

Lemma files_of_stopped_capture env w cfg order html r d :
  calls_run env w (capture_plan (cwd env) cfg order html ++ return_plan) r d ->
  (receipts_rendered d = [] /\ screenshots_taken d = []) \/
  (receipts_rendered d = [] /\ screenshots_taken d = [screenshot_file (cwd env) cfg order]) \/
  (receipts_rendered d = [receipt_file (cwd env) cfg order] /\
   screenshots_taken d = [screenshot_file (cwd env) cfg order]).
Proof.
  unfold capture_plan. rewrite <- app_assoc. intros Hrun.
  apply calls_run_app_inv in Hrun as [(e & -> & Hwaits) | (d1 & d2 & -> & Hwaits & Hrest)].
  { left. split; apply omap_none; intros ev Hev;
      apply (calls_run_elem_of _ _ _ _ _ _ Hwaits) in Hev;
      apply preview_waits_are_waits in Hev as [selector Hev];
      rewrite Hev; by destruct (raised ev). }
  assert (Hnone : receipts_rendered d1 = [] /\ screenshots_taken d1 = []).
  { split; apply omap_none; intros ev Hev;
      apply (calls_run_elem_of _ _ _ _ _ _ Hwaits) in Hev;
      apply preview_waits_are_waits in Hev as [selector Hev];
      rewrite Hev; by destruct (raised ev). }
  destruct Hnone as [R1 S1].
  unfold receipts_rendered, screenshots_taken in *. rewrite !omap_app, R1, S1.
  cbn [app] in Hrest |- *.
  inversion Hrest as [|? ? ? e Hf|? ? ? ? d3 Hf Hrest3]; subst; [by left|].
  inversion Hrest3 as [|? ? ? e Hf3|? ? ? ? d4 Hf3 Hrest4]; subst; [by right; left|].
  inversion Hrest4 as [|? ? ? e Hf4|? ? ? ? d5 Hf4 Hrest5]; subst; [by right; left|].
  right. right.
  assert (Hlast : omap (fun ev => match raised ev, action ev with
                                  | None, HtmlToPdf _ p => Some p | _, _ => None end) d5 = []
                  /\ omap (fun ev => match raised ev, action ev with
                                     | None, Screenshot p => Some p | _, _ => None end) d5 = []).
  { split; apply omap_none; intros ev Hev;
      apply (calls_run_elem_of _ _ _ _ _ _ Hrest5) in Hev;
      unfold return_plan in Hev; rewrite !elem_of_cons in Hev;
      destruct Hev as [Hev|[Hev|[Hev|Hev]]]; try (rewrite Hev; by destruct (raised ev));
      by apply elem_of_nil in Hev. }
  change (?x :: ?y :: ?z :: d5) with ([x; y; z] ++ d5).
  rewrite !omap_app. destruct Hlast as [-> ->]. by cbn.
Qed.

Lemma files_of_stopped_order env w cfg order r d :
  order_run env w cfg order r d ->
  (receipts_rendered d = [] /\ screenshots_taken d = []) \/
  (receipts_rendered d = [] /\ screenshots_taken d = [screenshot_file (cwd env) cfg order]) \/
  (receipts_rendered d = [receipt_file (cwd env) cfg order] /\
   screenshots_taken d = [screenshot_file (cwd env) cfg order]).
Proof.
  destruct 1 as [e d Hfill | d1 d2 e Hfill Hsubmit Hevents
                | d1 d2 html r d3 Hfill Hsubmit Hevents Hrest];
    destruct (no_files_in_fill _ _ _ _ _ Hfill) as (F1 & F2 & _).
  - by left.
  - destruct (no_files_in_submit _ Hevents) as (S1 & S2 & _).
    left. unfold receipts_rendered, screenshots_taken in *.
    by rewrite !omap_app, F1, F2, S1, S2.
  - destruct (no_files_in_submit _ Hevents) as (S1 & S2 & _).
    apply files_of_stopped_capture in Hrest.
    unfold receipts_rendered, screenshots_taken in *.
    by rewrite !omap_app, F1, F2, S1, S2.
Qed.

Lemma batch_run_files_any env cfg w orders r d :
  batch_run env cfg w orders r d ->
  receipts_rendered d `prefix_of` map (receipt_file (cwd env) cfg) orders /\
  screenshots_taken d `prefix_of` map (screenshot_file (cwd env) cfg) orders /\
  (length (receipts_rendered d) <= length (screenshots_taken d)
   <= S (length (receipts_rendered d)))%nat.
Proof.
  induction 1 as [w | w order rest e d Horder
                 | w order rest d1 r d2 Horder Hrest (IHr & IHs & IHl)].
  - repeat split; cbn; try done; lia.
  - apply files_of_stopped_order in Horder
      as [[-> ->] | [[-> ->] | [-> ->]]]; cbn [map length];
      repeat split; try lia;
      try apply prefix_nil; try (apply prefix_cons; apply prefix_nil).
  - destruct (order_run_files _ _ _ _ _ Horder) as (O1 & O2 & _).
    unfold receipts_rendered, screenshots_taken in *.
    rewrite !omap_app, O1, O2. cbn [map app length].
    repeat split; try lia; by apply prefix_cons.
Qed.

(** X4.  For every batch, also one that raises: the receipts rendered are
    those of the first orders of the list, in the order of the list, none
    skipped; so are the screenshots taken; every receipt rendered has its
    screenshot, taken before it, and at most one screenshot is left without
    a receipt.  When the batch returns, every order has both. *)
Theorem files_follow_the_orders
    (extra : nat) (orders : list Order) (config : ref) (cfg : Config)
    (env : Env) (w : World) :
  heap w !! config = Some cfg ->
  exists r d,
    fill_and_submit_sales_form (4 + extra) orders config env w = (r, extend w d) /\
    receipts_rendered d `prefix_of` map (receipt_file (cwd env) cfg) orders /\
    screenshots_taken d `prefix_of` map (screenshot_file (cwd env) cfg) orders /\
    (length (receipts_rendered d) <= length (screenshots_taken d)
     <= S (length (receipts_rendered d)))%nat /\
    (r = Ok tt ->
     length (receipts_rendered d) = length orders /\
     length (screenshots_taken d) = length orders).
Proof.
  intros Hcfg.
  destruct (fill_and_submit_sales_form_run extra config cfg env orders w Hcfg)
    as (r & d & Hrun & Hbatch).
  exists r, d. split; [exact Hrun|].
  destruct (batch_run_files_any _ _ _ _ _ _ Hbatch) as (Hr & Hs & Hl).
  split; [exact Hr|]. split; [exact Hs|]. split; [exact Hl|].
  intros ->. destruct (batch_run_files _ _ _ _ _ Hbatch) as (-> & -> & _).
  by rewrite !length_map.
Qed.

Lemma files_follow_the_orders_witness :
  exists r d,
    fill_and_submit_sales_form 4 [sample_order; head_3_order] 0
      second_pdf_fails_env configured
    = (r, extend configured d) /\
    receipts_rendered d
      `prefix_of` map (receipt_file (cwd second_pdf_fails_env) Config_defaults)
                    [sample_order; head_3_order] /\
    screenshots_taken d
      `prefix_of` map (screenshot_file (cwd second_pdf_fails_env) Config_defaults)
                    [sample_order; head_3_order] /\
    (length (receipts_rendered d) <= length (screenshots_taken d)
     <= S (length (receipts_rendered d)))%nat /\
    (r = Ok tt ->
     length (receipts_rendered d) = 2%nat /\ length (screenshots_taken d) = 2%nat).
Proof.
  apply (files_follow_the_orders 0 [sample_order; head_3_order] 0 Config_defaults
           second_pdf_fails_env configured).
  reflexivity.
Defined.

(** The run of that batch: the second PDF is not rendered; one receipt and
    two screenshots are left. *)
Example second_pdf_fails_files :
  let run := fill_and_submit_sales_form 4 [sample_order; head_3_order] 0
               second_pdf_fails_env configured in
  fst run = Raised (LibraryError "cannot render") /\
  receipts_rendered (trace (snd run))
  = [["/"; "home"; "robot"; "output"; "receipts"; "receipt-1.pdf"]] /\
  screenshots_taken (trace (snd run))
  = [["/"; "home"; "robot"; "output"; "screenshots"; "robot-1.png"];
     ["/"; "home"; "robot"; "output"; "screenshots"; "robot-2.png"]].
Proof. repeat split; vm_compute; reflexivity. Qed.

(** ** When the archive is made *)

Lemma receipt_file_defaults cwd order :
  receipt_file cwd Config_defaults order
  = cwd ++ ["output"; "receipts"; "receipt-" +:+ str_int (order_number order) +:+ ".pdf"].
Proof.
  unfold receipt_file.
  change (absolute_from cwd (output_dir Config_defaults)) with (cwd ++ ["output"]).
  by rewrite <- app_assoc.
Qed.

Lemma batch_never_archives env cfg w orders r d :
  batch_run env cfg w orders r d -> Forall (fun ev => is_archive (action ev) = false) d.
Proof.
  apply (batch_run_actions (fun a => is_archive a = false)); try done.
  - intros order. by repeat constructor.
  - intros order html. apply capture_plan_Forall; try done. by repeat constructor.
Qed.

(** X2.  For every run of the task: a call that archives the receipts is
    the last call of the run, and it is made only after every row of the
    table has been processed to the end: before it, one receipt was
    rendered per row, in the order of the rows.  A run that stops earlier
    makes no archive. *)
Theorem archive_comes_last_and_complete
    (extra : nat) (env : Env) (w w' : World) (r : Result unit)
    (before after : list Event) (ev : Event) :
  order_robots_from_RobotSpareBin (4 + extra) env w = (r, w') ->
  trace w' = trace w ++ before ++ ev :: after ->
  is_archive (action ev) = true ->
  after = [] /\
  exists orders,
    Forall2 (fun row order => row_order row = Some order)
      (csv_rows env (trace w ++ [mkEvent download_call None]) "orders.csv") orders /\
    receipts_rendered before
    = map (fun order =>
             cwd env ++ ["output"; "receipts";
                         "receipt-" +:+ str_int (order_number order) +:+ ".pdf"]) orders.
Proof.
  intros Hrun Htrace Harchive.
  destruct (order_robots_run extra env w) as (r0 & d & Hrun0 & Htask).
  rewrite Hrun0 in Hrun. injection Hrun as <- <-.
  cbn in Htrace. apply app_inv_head in Htrace.
  assert (Hquiet : forall l,
    Forall (fun ev => is_archive (action ev) = false) l -> l = before ++ ev :: after -> False).
  { intros l Hl ->. rewrite Forall_app, Forall_cons in Hl.
    destruct Hl as (_ & Hev & _). congruence. }
  destruct Htask as [e Hd | e Hd Hr | before' row after' key Hd Hr Hrows Hb Hkey
                    | orders e d Hd Hr Hall Hopen | orders e d Hd Hr Hall Hbatch
                    | orders d r d_zip Hd Hr Hall Hbatch Hzip].
  - exfalso. eapply Hquiet; [|exact Htrace]. by repeat constructor.
  - exfalso. eapply Hquiet; [|exact Htrace]. by repeat constructor.
  - exfalso. eapply Hquiet; [|exact Htrace]. by repeat constructor.
  - exfalso. eapply Hquiet; [|exact Htrace].
    rewrite Forall_app. split; [by repeat constructor|].
    eapply (calls_run_actions (fun a => is_archive a = false)); [exact Hopen|].
    by repeat constructor.
  - exfalso. eapply Hquiet; [|exact Htrace].
    rewrite !Forall_app. split; [by repeat constructor|]. split; [by repeat constructor|].
    by eapply batch_never_archives.
  - assert (Hzip' : exists res, d_zip = [mkEvent (archive_call (cwd env)) res]).
    { inversion Hzip as [|? ? ? e Hf|? ? ? ? d' Hf Hrest]; subst; [by eexists|].
      inversion Hrest; subst. by eexists. }
    destruct Hzip' as [res ->].
    rewrite !app_assoc in Htrace.
    pose proof Htrace as Hsplit.
    eapply (only_last (fun ev => is_archive (action ev) = true)) in Hsplit as [-> ->];
      [|..|exact Harchive].
    + split; [done|]. apply app_inj_tail in Htrace as [<- _].
      exists orders. split; [exact Hall|].
      destruct (batch_run_files _ _ _ _ _ Hbatch) as (Hfiles & _).
      unfold receipts_rendered in *. rewrite !omap_app, Hfiles. cbn.
      apply map_ext. intros order. apply receipt_file_defaults.
    + rewrite !Forall_app. repeat split; try (by repeat constructor).
      * eapply Forall_impl; [by eapply batch_never_archives|].
        cbn. intros x Hx. congruence.
Qed.

Lemma archive_comes_last_and_complete_witness :
  let run := order_robots_from_RobotSpareBin 4 calm_env fresh in
  exists orders,
    Forall2 (fun row order => row_order row = Some order)
      (csv_rows calm_env (trace fresh ++ [mkEvent download_call None]) "orders.csv") orders /\
    receipts_rendered (take 20 (trace (snd run)))
    = map (fun order =>
             cwd calm_env ++ ["output"; "receipts";
                              "receipt-" +:+ str_int (order_number order) +:+ ".pdf"])
        orders.
Proof.
  intros run.
  destruct (archive_comes_last_and_complete 0 calm_env fresh (snd run) (fst run)
              (take 20 (trace (snd run))) []
              (mkEvent (archive_call (cwd calm_env)) None)) as [_ H].
  - vm_compute. reflexivity.
  - vm_compute. reflexivity.
  - reflexivity.
  - exact H.
Defined.

(** ** What comes before a submit and before an output file *)

Lemma prefix_before {A} (P : A -> Prop) (l : list A) : forall rest before ev after,
  Forall (fun y => ~ P y) l ->
  l ++ rest = before ++ ev :: after ->
  P ev ->
  l `prefix_of` before.
Proof.
  induction l as [|x l IH]; intros rest before ev after Hl Heq Hev.
  - apply prefix_nil.
  - apply Forall_cons in Hl as [Hx Hl]. destruct before as [|y before]; cbn in Heq.
    + injection Heq as -> _. done.
    + injection Heq as -> Heq. apply prefix_cons. by eapply IH.
Qed.

Lemma not_in_all {A} (P : A -> Prop) (l before after : list A) ev :
  Forall (fun y => ~ P y) l -> l = before ++ ev :: after -> P ev -> False.
Proof.
  intros Hl -> Hev. rewrite Forall_app, Forall_cons in Hl. by destruct Hl as (_ & ? & _).
Qed.

Lemma fill_plan_no_order_click env w order r d :
  calls_run env w (fill_plan order) r d ->
  Forall (fun ev => ~ action ev = order_click) d.
Proof.
  intros Hrun. eapply (calls_run_actions (fun a => ~ a = order_click)); [exact Hrun|].
  unfold fill_plan, order_click. repeat (apply Forall_cons_2; [discriminate|]).
  apply Forall_nil_2.
Qed.

(** X11.  For every order: a click on the Order button is made only after
    the four fields of the form were set with the values of that order, by
    calls that all returned.  A form that could not be filled is not
    submitted. *)
Theorem submit_only_after_the_form_is_filled
    (extra : nat) (order : Order) (config : ref) (cfg : Config) (env : Env)
    (w w' : World) (r : Result unit) (before after : list Event) (ev : Event) :
  heap w !! config = Some cfg ->
  process_order (4 + extra) config order env w = (r, w') ->
  trace w' = trace w ++ before ++ ev :: after ->
  action ev = order_click ->
  [mkEvent (SelectOption "#head" (head order)) None;
   mkEvent (Click ("#id-body-" +:+ body order) None) None;
   mkEvent (Fill "input.form-control[type='number']" (legs order)) None;
   mkEvent (Fill "#address" (address order)) None] `prefix_of` before.
Proof.
  intros Hcfg Hrun Htrace Hclick.
  destruct (process_order_run extra order config cfg env w Hcfg) as (r0 & d & Hrun0 & Horder).
  rewrite Hrun0 in Hrun. injection Hrun as <- <-.
  cbn in Htrace. apply app_inv_head in Htrace.
  destruct Horder as [e d Hfill | d1 d2 e Hfill Hsubmit Hevents
                     | d1 d2 html r d3 Hfill Hsubmit Hevents Hrest];
    pose proof (fill_plan_no_order_click _ _ _ _ _ Hfill) as Hno.
  - exfalso. by eapply (not_in_all (fun ev => action ev = order_click)).
  - apply calls_run_ok in Hfill as ->.
    by eapply (prefix_before (fun ev => action ev = order_click)).
  - apply calls_run_ok in Hfill as ->.
    by eapply (prefix_before (fun ev => action ev = order_click)).
Qed.

Lemma submit_only_after_the_form_is_filled_witness :
  [mkEvent (SelectOption "#head" (head sample_order)) None;
   mkEvent (Click ("#id-body-" +:+ body sample_order) None) None;
   mkEvent (Fill "input.form-control[type='number']" (legs sample_order)) None;
   mkEvent (Fill "#address" (address sample_order)) None]
    `prefix_of` take 5 (trace (snd (process_order 4 0 sample_order
                                      click_fails_once_env configured))).
Proof.
  apply (submit_only_after_the_form_is_filled 0 sample_order 0 Config_defaults
           click_fails_once_env configured
           (snd (process_order 4 0 sample_order click_fails_once_env configured))
           (fst (process_order 4 0 sample_order click_fails_once_env configured))
           (take 5 (trace (snd (process_order 4 0 sample_order
                                  click_fails_once_env configured))))
           (drop 6 (trace (snd (process_order 4 0 sample_order
                                  click_fails_once_env configured))))
           (mkEvent order_click None)).
  - reflexivity.
  - vm_compute. reflexivity.
  - vm_compute. reflexivity.
  - reflexivity.
Defined.

Lemma submit_returned_receipt env w d :
  submit_with_retries env w = (Ok tt, extend w d) -> mkEvent receipt_wait None ∈ d.
Proof.
  intros Hrun.
  destruct (submit_with_retries_attempts env w) as (r' & n & d' & Hrun' & Hatt & _).
  rewrite Hrun' in Hrun. injection Hrun as -> Hd. apply app_inv_head in Hd as <-.
  inversion Hatt; subst. rewrite elem_of_app, !elem_of_cons. auto.
Qed.

(** X12.  For every order: a call that writes an output file (the
    screenshot, the PDF rendering, the overlay) is made only after a wait
    for [#receipt] has returned for that order.  Nothing is captured before
    the receipt was seen. *)
Theorem output_only_after_the_receipt_is_visible
    (extra : nat) (order : Order) (config : ref) (cfg : Config) (env : Env)
    (w w' : World) (r : Result unit) (before after : list Event) (ev : Event) :
  heap w !! config = Some cfg ->
  process_order (4 + extra) config order env w = (r, w') ->
  trace w' = trace w ++ before ++ ev :: after ->
  writes_output (action ev) = true ->
  mkEvent receipt_wait None ∈ before.
Proof.
  intros Hcfg Hrun Htrace Hout.
  destruct (process_order_run extra order config cfg env w Hcfg) as (r0 & d & Hrun0 & Horder).
  rewrite Hrun0 in Hrun. injection Hrun as <- <-.
  cbn in Htrace. apply app_inv_head in Htrace.
  assert (Hno : forall l,
    (forall x, x ∈ l -> writes_output (action x) = false) ->
    Forall (fun x => ~ writes_output (action x) = true) l).
  { intros l Hl. apply Forall_forall. intros x Hx. rewrite (Hl x Hx). discriminate. }
  destruct Horder as [e d Hfill | d1 d2 e Hfill Hsubmit Hevents
                     | d1 d2 html r d3 Hfill Hsubmit Hevents Hrest].
  - exfalso. eapply (not_in_all (fun x => writes_output (action x) = true));
      [|exact Htrace|exact Hout].
    apply Hno. intros x Hx. by eapply fill_plan_no_output.
  - exfalso. eapply (not_in_all (fun x => writes_output (action x) = true));
      [|exact Htrace|exact Hout].
    apply Hno. intros x [Hx|Hx]%elem_of_app;
      [by eapply fill_plan_no_output|by eapply submit_events_no_output].
  - rewrite app_assoc in Htrace.
    assert (Hpre : (d1 ++ d2) `prefix_of` before).
    { eapply (prefix_before (fun x => writes_output (action x) = true));
        [|exact Htrace|exact Hout].
      apply Hno. intros x [Hx|Hx]%elem_of_app;
        [by eapply fill_plan_no_output|by eapply submit_events_no_output]. }
    destruct Hpre as [k ->].
    rewrite <- extend_extend in Hsubmit. apply submit_returned_receipt in Hsubmit.
    rewrite !elem_of_app. auto.
Qed.

Lemma output_only_after_the_receipt_is_visible_witness :
  let run := process_order 4 0 sample_order click_fails_once_env configured in
  mkEvent receipt_wait None ∈ take 11 (trace (snd run)).
Proof.
  intros run.
  apply (output_only_after_the_receipt_is_visible 0 sample_order 0 Config_defaults
           click_fails_once_env configured (snd run) (fst run)
           (take 11 (trace (snd run))) (drop 12 (trace (snd run)))
           (mkEvent (Screenshot ["/"; "home"; "robot"; "output"; "screenshots"; "robot-1.png"])
              None)).
  - reflexivity.
  - vm_compute. reflexivity.
  - vm_compute. reflexivity.
  - reflexivity.
Defined.

(** ** The error of an incomplete row *)

Lemma comprehension_first_missing row after key env w : forall before,
  Forall (fun row => missing_column row = None) before ->
  missing_column row = Some key ->
  comprehension Order_of_row (before ++ row :: after) env w = (Raised (KeyError key), w).
Proof.
  intros before Hbefore Hkey.
  induction Hbefore as [|x before Hx _ IH]; cbn [app comprehension]; unfold bind at 1.
  - destruct (Order_of_row_cases row env w)
      as [(? & _ & Hnone & _) | (key' & _ & Hkey' & ->)]; congruence.
  - destruct (Order_of_row_cases x env w)
      as [(order & _ & _ & ->) | (key' & _ & Hkey' & _)]; [|congruence].
    unfold bind at 1. by rewrite IH.
Qed.

(** X13.  When the table has a row without one of the expected columns,
    [get_orders] raises the [KeyError] of the first column, in the order
    Order number, Head, Body, Legs, Address, that the first such row lacks,
    whatever the later rows are; the rows before it do not change that, and
    no order is returned. *)
Theorem get_orders_names_the_first_missing_column
    (config : ref) (cfg : Config) (env : Env) (w : World)
    (before after : list Row) (row : Row) (key : string) :
  heap w !! config = Some cfg ->
  fails env (trace w) (ReadTableFromCsv (orders_file_name cfg)) = None ->
  csv_rows env (trace w) (orders_file_name cfg) = before ++ row :: after ->
  Forall (fun row => missing_column row = None) before ->
  missing_column row = Some key ->
  get_orders config env w
  = (Raised (KeyError key),
     extend w [mkEvent (ReadTableFromCsv (orders_file_name cfg)) None]) /\
  key ∈ expected_columns /\
  lacks row key /\
  str_exn (KeyError key) = "'" +:+ key +:+ "'".
Proof.
  intros Hcfg Hread Hrows Hbefore Hkey.
  split; [|split; [by apply missing_column_lacks in Hkey as [? _]|
                   split; [by apply missing_column_lacks in Hkey as [_ ?]|done]]].
  unfold get_orders. unfold bind at 1. rewrite (getattr_ok _ _ _ _ _ Hcfg).
  unfold bind at 1.
  destruct (read_table_from_csv_cases (orders_file_name cfg) env w)
    as [[_ ->] | [e [He _]]]; [|congruence].
  rewrite Hrows. by apply comprehension_first_missing.
Qed.

Lemma get_orders_names_the_first_missing_column_witness :
  get_orders 0 legless_env configured
  = (Raised (KeyError "Legs"),
     extend configured [mkEvent (ReadTableFromCsv "orders.csv") None]) /\
  "Legs" ∈ expected_columns /\
  lacks legless_row "Legs" /\
  str_exn (KeyError "Legs") = "'Legs'".
Proof.
  apply (get_orders_names_the_first_missing_column 0 Config_defaults legless_env configured
           [sample_row] [] legless_row "Legs").
  - reflexivity.
  - reflexivity.
  - reflexivity.
  - repeat constructor.
  - reflexivity.
Defined.
